(** * Healthcare assistant: retry client and conversation orchestrator

    A shallow embedding of [app.py].  The script talks to three external
    collaborators: the Streamlit rendering surface ([st.*]), the process
    clock ([time.sleep]) and the hosted generation API ([genai.*]).  Their
    calls are recorded as an ordered trace of [Event]s; the answers of the
    generation API come from a [provider] function indexed by the number of
    calls made so far, so that any sequence of successes and failures can be
    played against the code. *)

From Stdlib Require Import String Ascii List ZArith QArith Lia Bool Arith.
From Stdlib Require Import DecimalString.
Import ListNotations.

Local Open Scope string_scope.
Local Open Scope Z_scope.

(** ** Python strings *)

Module PyStr.

(** [str(n)] for a Python [int]. *)
Definition of_int (z : Z) : string := NilZero.string_of_int (Z.to_int z).

(** [bool(s)]: the empty string is falsy. *)
Definition truthy (s : string) : bool :=
  match s with EmptyString => false | String _ _ => true end.

(** One character of [str.lower()].  Strings are byte strings here (UTF-8);
    only the ASCII capitals [A-Z] are mapped, bytes of multi-byte
    characters are left alone.  Python lowercases non-ASCII letters too,
    but the only non-ASCII characters whose lowercase form contains an
    ASCII letter yield [k] or [i], which do not occur in the needle
    [overloaded], so the membership test of the retry loop is unaffected. *)
Definition lower_ascii (c : ascii) : ascii :=
  let n := nat_of_ascii c in
  if ((65 <=? n) && (n <=? 90))%nat then ascii_of_nat (n + 32) else c.

(** [s.lower()] *)
Fixpoint lower (s : string) : string :=
  match s with
  | EmptyString => EmptyString
  | String c t => String (lower_ascii c) (lower t)
  end.

(** [hay.startswith(needle)] *)
Fixpoint startswith (needle hay : string) : bool :=
  match needle, hay with
  | EmptyString, _ => true
  | String _ _, EmptyString => false
  | String a n, String b h => Ascii.eqb a b && startswith n h
  end.

(** [needle in hay] *)
Fixpoint contains (needle hay : string) : bool :=
  startswith needle hay ||
  match hay with
  | EmptyString => false
  | String _ t => contains needle t
  end.

(** What [contains] decides: [hay] splits around an occurrence of
    [needle]. *)
Definition Substring (needle hay : string) : Prop :=
  exists pre post, hay = pre ++ needle ++ post.

(** The same up to the case of ASCII letters: some slice of [hay]
    lowercases to the lowercase [needle]. *)
Definition SubstringCI (needle hay : string) : Prop :=
  exists pre mid post, hay = pre ++ mid ++ post /\ lower mid = lower needle.

End PyStr.

(** ** Data model *)

(** An entry of [st.session_state.messages]:
    [{"role": ..., "content": ...}]. *)
Record Message := { role : string; content : string }.

(** A turn in the provider's format:
    [{"role": ..., "parts": [{"text": ...}]}]. *)
Record Part := { text : string }.
Record Turn := { turn_role : string; parts : list Part }.

(** A streamed chunk; [chunk_text = None] is a chunk without a [text]
    attribute. *)
Record Chunk := { chunk_text : option string }.

(** The streaming response: a lazy, finite sequence of chunks whose
    iteration either ends or raises. *)
Inductive Stream :=
| StreamEnd
| StreamRaise (e : string)
| StreamChunk (c : Chunk) (rest : Stream).

(** The chat object returned by [model.start_chat]; opaque to the script. *)
Inductive ChatSession := Chat (id : nat).

Record GenerationConfig := { temperature : Q; top_p : Q; top_k : Z }.

Record SafetySetting := { category : string; threshold : string }.

(** Everything one pass through the [try] block hands to the provider:
    the model set-up, the history given to [start_chat] and the text given
    to [send_message]. *)
Record Request := {
  model_name : string;
  req_generation_config : GenerationConfig;
  req_safety_settings : list SafetySetting;
  req_history : list Turn;
  req_message : string
}.

(** What the provider does with a request: it answers with a stream and a
    chat object, or some call of the [try] block raises. *)
Inductive ProviderResult :=
| Ok (response : Stream) (chat : ChatSession)
| Raise (e : string).

(** The value [generate_response_with_retry] returns. *)
Inductive Completion :=
| Reply (response : Stream) (chat : ChatSession)  (* [return response, chat] *)
| NoReply                                         (* [return None, None] *)
| BareNone.                                       (* the loop is left: [None] *)

(** Calls to the collaborators, in the order the script makes them. *)
Inductive Event :=
| Title (s : string)
| Caption (s : string)
| SidebarTitle (s : string)
| SidebarInfo (s : string)
| SidebarTextInput (label : string)
| SidebarWarning (s : string)
| SidebarError (s : string)
| Configure (api_key : string)
| ChatMessage (who : string)
| Markdown (s : string)
| Placeholder (s : string)
| Warning (s : string)
| Error (s : string)
| Sleep (seconds : Z)
| Pace
| Send (r : Request)
| Stop.

(** [st.session_state] together with the number of requests the provider
    has received.  A key that is missing from the session state is given
    its initial value on lines 151-155 before anything reads it, so a
    missing [messages] is the empty list and a missing [chat_session] is
    [None]. *)
Record State := {
  calls : nat;
  messages : list Message;
  chat_session : option ChatSession;
  google_api_key : option string
}.

(** What one run of the script reads from outside. *)
Record Inputs := {
  env_key : option string;               (* [os.environ.get("GOOGLE_API_KEY")] *)
  key_input : string;                    (* what [st.sidebar.text_input] returns *)
  configure_error : string -> option string;  (* [genai.configure] raising *)
  chat_input : option string             (* what [st.chat_input] returns *)
}.

(** ** Effects *)

(** How a computation ends: with a value, with an exception, because
    [st.stop()] ended the script run, or, for the fuelled loop only, because
    the fuel ran out. *)
Inductive Outcome (A : Type) :=
| Val (a : A)
| Raised (e : string)
| Halted
| Exhausted.
Arguments Val {A} a.
Arguments Raised {A} e.
Arguments Halted {A}.
Arguments Exhausted {A}.

(** State is threaded, the trace is accumulated; both survive an
    exception, as Python's mutations do. *)
Definition M (A : Type) : Type := State -> Outcome A * State * list Event.

Definition ret {A} (a : A) : M A := fun s => (Val a, s, []).

Definition bind {A B} (m : M A) (k : A -> M B) : M B :=
  fun s =>
    match m s with
    | (Val a, s1, t1) => let '(o, s2, t2) := k a s1 in (o, s2, (t1 ++ t2)%list)
    | (Raised e, s1, t1) => (Raised e, s1, t1)
    | (Halted, s1, t1) => (Halted, s1, t1)
    | (Exhausted, s1, t1) => (Exhausted, s1, t1)
    end.

Declare Scope py_scope.
Delimit Scope py_scope with py.
Notation "x <- m ;; k" := (bind m (fun x => k))
  (at level 61, m at next level, right associativity) : py_scope.
Notation "m ;; k" := (bind m (fun _ => k))
  (at level 61, right associativity) : py_scope.
Local Open Scope py_scope.

Definition emit (e : Event) : M unit := fun s => (Val tt, s, [e]).
Definition get : M State := fun s => (Val s, s, []).
Definition put (s : State) : M unit := fun _ => (Val tt, s, []).
Definition raise {A} (e : string) : M A := fun s => (Raised e, s, []).
Definition exhausted {A} : M A := fun s => (Exhausted, s, []).

(** [try: body except Exception as e: handler(str(e))] *)
Definition try_except {A} (body : M A) (handler : string -> M A) : M A :=
  fun s =>
    match body s with
    | (Raised e, s1, t1) => let '(o, s2, t2) := handler e s1 in (o, s2, (t1 ++ t2)%list)
    | r => r
    end.

(** [for x in xs: body(x)] *)
Fixpoint for_each {A} (xs : list A) (body : A -> M unit) : M unit :=
  match xs with
  | [] => ret tt
  | x :: rest => body x ;; for_each rest body
  end.

(** [st.stop()] *)
Definition st_stop {A} : M A := fun s => (Halted, s, [Stop]).

(** CPython turns the length of a sleep into nanoseconds held in a signed
    64-bit integer. *)
Definition fits_pytime (seconds : Z) : bool :=
  (-9223372036854775808 <=? seconds * 1000000000)
  && (seconds * 1000000000 <=? 9223372036854775807).

(** The longest whole number of seconds that conversion accepts. *)
Definition sleep_max : Z := 9223372036.

(** [time.sleep(seconds)] for an integer length, as CPython checks it: a
    length whose nanoseconds do not fit raises [OverflowError], a negative
    one raises [ValueError], any other is waited for.  The wait itself is
    left to the operating system, which is taken to grant it; a platform
    that computes a deadline from its monotonic clock can refuse lengths
    within the machine's uptime of [sleep_max], so the statements about
    completed waits below keep to lengths of at most [sleep_safe]. *)
Definition time_sleep (seconds : Z) : M unit :=
  if negb (fits_pytime seconds) then
    raise "timestamp too large to convert to C _PyTime_t"
  else if seconds <? 0 then raise "sleep length must be non-negative"
  else emit (Sleep seconds).

(** Half the range of the nanosecond clock, in whole seconds (146 years):
    a deadline made of a clock reading and a length that are both below it
    cannot overflow. *)
Definition sleep_safe : Z := 4611686018.

(** An integer with more decimal digits than [sys.get_int_max_str_digits()],
    4300 unless changed, is not converted to a string. *)
Definition int_str_limit : Z := Eval vm_compute in 10 ^ 4300.

(** [str(n)] and [f"{n}"] for a Python [int], with that limit. *)
Definition py_str (n : Z) : M string :=
  if int_str_limit <=? Z.abs n then
    raise "Exceeds the limit (4300 digits) for integer string conversion; use sys.set_int_max_str_digits() to increase the limit"
  else ret (PyStr.of_int n).

(** ** The completion client *)

Definition generation_config : GenerationConfig :=
  {| temperature := 3 # 10; top_p := 8 # 10; top_k := 40 |}.

Definition safety_settings : list SafetySetting :=
  [ {| category := "HARM_CATEGORY_HARASSMENT"; threshold := "BLOCK_MEDIUM_AND_ABOVE" |};
    {| category := "HARM_CATEGORY_HATE_SPEECH"; threshold := "BLOCK_MEDIUM_AND_ABOVE" |};
    {| category := "HARM_CATEGORY_SEXUALLY_EXPLICIT"; threshold := "BLOCK_MEDIUM_AND_ABOVE" |};
    {| category := "HARM_CATEGORY_DANGEROUS_CONTENT"; threshold := "BLOCK_MEDIUM_AND_ABOVE" |} ].

Definition system_instruction : string :=
"You are a healthcare assistant. Be CONCISE and DIRECT.

INTERACTION FLOW:
1. Ask for name
2. Ask for age  
3. Ask for gender
4. Ask for location (city/area)
5. Ask about symptoms/issue
6. Provide brief diagnosis and treatment

RESPONSE FORMAT:
- Keep responses under 3 sentences
- Be direct and professional
- No lengthy explanations
- Focus on essential information only

DIAGNOSIS FORMAT:
- Possible condition: [brief diagnosis]
- First aid: [2-3 key steps]
- Medication: [common treatments]
- See a doctor immediately for proper diagnosis
- Nearby hospitals: [provide 1-2 options based on location]

LOCATION-BASED HOSPITALS:
- Lagos: Lagos University Teaching Hospital, General Hospital Lagos
- Abuja: University of Abuja Teaching Hospital, National Hospital Abuja  
- Covenant University area: Covenant University Hospital https://maps.app.goo.gl/njSWK8Gj8JPmjv5SA
- Port Harcourt: University of Port Harcourt Teaching Hospital
- Kano: Aminu Kano Teaching Hospital
- Ibadan: University College Hospital Ibadan

Ask for location to provide specific nearby hospitals.".

(** The line feed of the f-string's [\n]. *)
Definition nl : string := String (ascii_of_nat 10) EmptyString.

(** [bool(conversation_history)]: [None] and the empty list are falsy. *)
Definition history_truthy (conversation_history : option (list Turn)) : bool :=
  match conversation_history with
  | Some (_ :: _) => true
  | _ => false
  end.

(** Lines 107-117: which chat is started and which text is sent. *)
Definition build_request (prompt : string)
    (conversation_history : option (list Turn)) : Request :=
  if history_truthy conversation_history then
    {| model_name := "gemini-2.0-flash";
       req_generation_config := generation_config;
       req_safety_settings := safety_settings;
       req_history := match conversation_history with Some h => h | None => [] end;
       req_message := prompt |}
  else
    let prefixed_prompt := system_instruction ++ nl ++ nl ++ "User: " ++ prompt in
    {| model_name := "gemini-2.0-flash";
       req_generation_config := generation_config;
       req_safety_settings := safety_settings;
       req_history := [];
       req_message := prefixed_prompt |}.

(** The test of line 126. *)
Definition is_overloaded (error_message : string) : bool :=
  PyStr.contains "503" error_message &&
  PyStr.contains "overloaded" (PyStr.lower error_message).

(** The text of the warning of line 129. *)
Definition retry_warning (retry_delay retries max_retries : Z) : string :=
  "Model overloaded. Retrying in " ++ PyStr.of_int retry_delay
  ++ " seconds... (Attempt " ++ PyStr.of_int retries ++ "/"
  ++ PyStr.of_int max_retries ++ ")".

(** The f-string of line 129: its three numbers are converted from left
    to right, and a conversion that raises leaves no text. *)
Definition format_retry_warning (retry_delay retries max_retries : Z) : M string :=
  a <- py_str retry_delay ;;
  b <- py_str retries ;;
  c <- py_str max_retries ;;
  ret ("Model overloaded. Retrying in " ++ a
       ++ " seconds... (Attempt " ++ b ++ "/" ++ c ++ ")").

(** The message of line 134. *)
Definition cap_error : string :=
  "Maximum retry attempts reached. The service is currently unavailable.".

(** What the [except] clause decides for the enclosing loop. *)
Inductive Control :=
| Return (c : Completion)
| Continue (retries retry_delay : Z).

Section Client.

(** The generation API: the answer to the [n]-th request made. *)
Variable provider : nat -> Request -> ProviderResult.

(** Lines 67-117 as one call: the request is counted and traced, then the
    provider's answer is returned or raised. *)
Definition send (r : Request) : M (Stream * ChatSession) :=
  fun s =>
    let s1 := {| calls := S (calls s); messages := messages s;
                 chat_session := chat_session s;
                 google_api_key := google_api_key s |} in
    match provider (calls s) r with
    | Ok response chat => (Val (response, chat), s1, [Send r])
    | Raise e => (Raised e, s1, [Send r])
    end.

(** One pass through the loop body, lines 40-139. *)
Definition attempt (prompt : string) (conversation_history : option (list Turn))
    (max_retries retries retry_delay : Z) : M Control :=
  try_except
    (r <- send (build_request prompt conversation_history) ;;
     ret (Return (Reply (fst r) (snd r))))
    (fun error_message =>
       if is_overloaded error_message then
         let retries := retries + 1 in
         if retries <=? max_retries then
           w <- format_retry_warning retry_delay retries max_retries ;;
           emit (Warning w) ;;
           time_sleep retry_delay ;;
           ret (Continue retries (retry_delay * 2))
         else
           emit (Error cap_error) ;;
           ret (Return NoReply)
       else
         emit (Error ("Error generating response: " ++ error_message)) ;;
         ret (Return NoReply)).

(** [while retries <= max_retries: ...], with fuel for the recursion. *)
Fixpoint retry_loop (fuel : nat) (prompt : string)
    (conversation_history : option (list Turn))
    (max_retries retries retry_delay : Z) : M Completion :=
  match fuel with
  | O => exhausted
  | S fuel' =>
      if retries <=? max_retries then
        c <- attempt prompt conversation_history max_retries retries retry_delay ;;
        match c with
        | Return v => ret v
        | Continue retries' retry_delay' =>
            retry_loop fuel' prompt conversation_history max_retries retries' retry_delay'
        end
      else ret BareNone
  end.

(** Every pass either returns or adds one to [retries], so
    [max_retries + 2] units of fuel are never used up (see
    [retry_loop_fuel]). *)
Definition generate_response_with_retry (prompt : string)
    (conversation_history : option (list Turn))
    (max_retries retry_delay : Z) : M Completion :=
  retry_loop (S (Z.to_nat (max_retries + 1))) prompt conversation_history
             max_retries 0 retry_delay.

Definition default_max_retries : Z := 3.
Definition default_retry_delay : Z := 2.

(** Line 142: the two keyword arguments take their defaults. *)
Definition generate_response (prompt : string)
    (conversation_history : option (list Turn)) : M Completion :=
  generate_response_with_retry prompt conversation_history
                               default_max_retries default_retry_delay.

End Client.

(** ** The orchestrator *)

(** [bool(api_key)] for a value that is [None] or a string. *)
Definition key_truthy (api_key : option string) : bool :=
  match api_key with
  | Some k => PyStr.truthy k
  | None => false
  end.

Definition set_google_api_key (k : string) : M unit :=
  fun s => (Val tt,
            {| calls := calls s; messages := messages s;
               chat_session := chat_session s; google_api_key := Some k |}, []).

Definition set_chat_session (c : ChatSession) : M unit :=
  fun s => (Val tt,
            {| calls := calls s; messages := messages s;
               chat_session := Some c; google_api_key := google_api_key s |}, []).

(** [st.session_state.messages.append(m)] *)
Definition append_message (m : Message) : M unit :=
  fun s => (Val tt,
            {| calls := calls s; messages := (messages s ++ [m])%list;
               chat_session := chat_session s;
               google_api_key := google_api_key s |}, []).

(** [genai.configure(api_key=api_key)] *)
Definition genai_configure (inp : Inputs) (api_key : string) : M unit :=
  match configure_error inp api_key with
  | Some e => raise e
  | None => emit (Configure api_key)
  end.

(** Lines 8-31. *)
Definition setup_google_api (inp : Inputs) : M bool :=
  api_key <-
    (if negb (key_truthy (env_key inp)) then
       s <- get ;;
       match google_api_key s with
       | Some cached => ret (Some cached)
       | None =>
           emit (SidebarTextInput "Enter your Google AI API Key:") ;;
           (if PyStr.truthy (key_input inp)
            then set_google_api_key (key_input inp) else ret tt) ;;
           ret (Some (key_input inp))
       end
     else ret (env_key inp)) ;;
  match api_key with
  | Some k =>
      if negb (PyStr.truthy k) then
        emit (SidebarWarning "Please enter your Google AI API key to continue") ;;
        ret false
      else
        try_except
          (genai_configure inp k ;; ret true)
          (fun e => emit (SidebarError ("Error initializing Google AI: " ++ e)) ;;
                    ret false)
  | None =>
      emit (SidebarWarning "Please enter your Google AI API key to continue") ;;
      ret false
  end.

(** Line 189-190: one message in the provider's format. *)
Definition to_gemini (msg : Message) : Turn :=
  let role := if (role msg =? "assistant")%string then "model" else "user" in
  {| turn_role := role; parts := [ {| text := content msg |} ] |}.

(** Lines 187-190: the loop over [messages[:-1]]. *)
Definition build_history (msgs : list Message) : list Turn :=
  fold_left (fun history msg => (history ++ [to_gemini msg])%list)
            (removelast msgs) [].

(** The cursor drawn after the text while it streams (the bytes of the
    source literal). *)
Definition cursor : string := "â–Œ".

(** Lines 210-214: the [for] loop over the chunks. *)
Fixpoint consume (response : Stream) (full_response : string) : M string :=
  match response with
  | StreamEnd => ret full_response
  | StreamRaise e => raise e
  | StreamChunk chunk rest =>
      match chunk_text chunk with
      | Some t =>
          if PyStr.truthy t then
            let full_response := full_response ++ t in
            emit (Placeholder (full_response ++ cursor)) ;;
            emit Pace ;;
            consume rest full_response
          else consume rest full_response
      | None => consume rest full_response
      end
  end.

Definition apology : string :=
  "I'm sorry, I couldn't generate a response. Please try again.".

(** Lines 208-223: the text that becomes the assistant's message.  A
    response object is truthy; only [None] takes the [else] branch. *)
Definition render_reply (response : option Stream) : M string :=
  match response with
  | Some response =>
      try_except
        (full_response <- consume response "" ;;
         emit (Placeholder full_response) ;;
         ret full_response)
        (fun e =>
           let error_message := "Error while streaming response: " ++ e in
           emit (Placeholder error_message) ;;
           ret error_message)
  | None =>
      emit (Placeholder apology) ;;
      ret apology
  end.

(** [response, chat = ...]: unpacking a bare [None] raises [TypeError]. *)
Definition unpack (c : Completion) : M (option Stream * option ChatSession) :=
  match c with
  | Reply response chat => ret (Some response, Some chat)
  | NoReply => ret (None, None)
  | BareNone => raise "cannot unpack non-iterable NoneType object"
  end.

Definition greeting : string :=
  "Hello! I'm your healthcare assistant. What's your name?".

(** Lines 167-168: the body of the loop that redraws the conversation. *)
Definition display_message (message : Message) : M unit :=
  emit (ChatMessage (role message)) ;;
  emit (Markdown (content message)).

Section Orchestrator.

Variable provider : nat -> Request -> ProviderResult.

(** Lines 179-226: the body of [if prompt := st.chat_input(...)]. *)
Definition handle_prompt (prompt : string) : M unit :=
  append_message {| role := "user"; content := prompt |} ;;
  emit (ChatMessage "user") ;;
  emit (Markdown prompt) ;;
  s <- get ;;
  let history := build_history (messages s) in
  emit (ChatMessage "assistant") ;;
  rc <- match chat_session s with
        | Some _ =>
            c <- generate_response provider prompt (Some history) ;;
            unpack c
        | None =>
            c <- generate_response provider prompt None ;;
            rc <- unpack c ;;
            match snd rc with
            | Some chat => set_chat_session chat
            | None => ret tt
            end ;;
            ret rc
        end ;;
  full_response <- render_reply (fst rc) ;;
  append_message {| role := "assistant"; content := full_response |}.

(** Lines 146-226. *)
Definition main (inp : Inputs) : M unit :=
  emit (Title "Healthcare Assistant") ;;
  emit (Caption "Quick medical guidance - Always consult a doctor for proper diagnosis") ;;
  emit (SidebarTitle "Settings") ;;
  emit (SidebarInfo "This chatbot provides preliminary health guidance. Always consult healthcare professionals for accurate diagnosis and treatment.") ;;
  ready <- setup_google_api inp ;;
  (if negb ready then st_stop else ret tt) ;;
  s <- get ;;
  for_each (messages s) display_message ;;
  (match messages s with
   | [] =>
       emit (ChatMessage "assistant") ;;
       emit (Markdown greeting) ;;
       append_message {| role := "assistant"; content := greeting |}
   | _ :: _ => ret tt
   end) ;;
  match chat_input inp with
  | Some prompt => if PyStr.truthy prompt then handle_prompt prompt else ret tt
  | None => ret tt
  end.

End Orchestrator.

(** ** Reading a trace *)

(** The requests the provider received. *)
Fixpoint requests (t : list Event) : list Request :=
  match t with
  | [] => []
  | Send r :: t' => r :: requests t'
  | _ :: t' => requests t'
  end.

(** The back-off waits, in order. *)
Fixpoint sleeps (t : list Event) : list Z :=
  match t with
  | [] => []
  | Sleep d :: t' => d :: sleeps t'
  | _ :: t' => sleeps t'
  end.

(** Messages shown with [st.error]. *)
Fixpoint errors (t : list Event) : list string :=
  match t with
  | [] => []
  | Error e :: t' => e :: errors t'
  | _ :: t' => errors t'
  end.

(** The number of passes through the [try] block. *)
Definition attempts (t : list Event) : Z := Z.of_nat (length (requests t)).

(** The number of times the loop waited and went round again. *)
Definition retries_performed (t : list Event) : Z := Z.of_nat (length (sleeps t)).

(** The turns the provider sees for a request: the chat's history, then the
    sent text as a user turn. *)
Definition request_turns (r : Request) : list Turn :=
  (req_history r ++ [ {| turn_role := "user"; parts := [ {| text := req_message r |} ] |} ])%list.

(** ** Sample providers *)

Definition sample_stream : Stream :=
  StreamChunk {| chunk_text := Some "Possible condition: flu. " |}
    (StreamChunk {| chunk_text := None |}
      (StreamChunk {| chunk_text := Some "" |}
        (StreamChunk {| chunk_text := Some "See a doctor." |} StreamEnd))).

Definition broken_stream : Stream :=
  StreamChunk {| chunk_text := Some "Possible " |}
    (StreamChunk {| chunk_text := Some "condition" |}
      (StreamRaise "connection reset")).

Definition overload_error : string :=
  "503 The model is overloaded. Please try again later.".

(** Fails with the overload error for the first [k] requests, then answers. *)
Definition flaky (k : nat) : nat -> Request -> ProviderResult :=
  fun n _ => if (n <? k)%nat then Raise overload_error else Ok sample_stream (Chat n).

Definition always_overloaded : nat -> Request -> ProviderResult :=
  fun _ _ => Raise overload_error.

Definition always_failing (e : string) : nat -> Request -> ProviderResult :=
  fun _ _ => Raise e.

Definition answering (r : Stream) : nat -> Request -> ProviderResult :=
  fun n _ => Ok r (Chat n).

Definition state0 : State :=
  {| calls := 0; messages := []; chat_session := None; google_api_key := None |}.

Definition with_key (prompt : option string) : Inputs :=
  {| env_key := Some "secret"; key_input := "";
     configure_error := fun _ => None; chat_input := prompt |}.

Definition no_key (prompt : option string) : Inputs :=
  {| env_key := None; key_input := "";
     configure_error := fun _ => None; chat_input := prompt |}.


(** ** Auxiliary notions used by the statements *)

(** The three components of a run. *)
Definition outcome {A} (r : Outcome A * State * list Event) : Outcome A := fst (fst r).
Definition final {A} (r : Outcome A * State * list Event) : State := snd (fst r).
Definition trace {A} (r : Outcome A * State * list Event) : list Event := snd r.

(** The state after [n] more requests have reached the provider. *)
Definition advance (n : nat) (s : State) : State :=
  {| calls := (n + calls s)%nat; messages := messages s;
     chat_session := chat_session s; google_api_key := google_api_key s |}.

(** [n] delays starting at [d], each twice the one before. *)
Fixpoint doubling (n : nat) (d : Z) : list Z :=
  match n with
  | O => []
  | S n' => d :: doubling n' (d * 2)
  end.

(** Each element of the list is twice its predecessor. *)
Fixpoint Doubles (l : list Z) : Prop :=
  match l with
  | a :: (b :: _) as rest => b = 2 * a /\ Doubles rest
  | _ => True
  end.

(** The text of the fragments a stream delivers before it ends or raises. *)
Fixpoint received (response : Stream) : string :=
  match response with
  | StreamChunk {| chunk_text := Some t |} rest => t ++ received rest
  | StreamChunk {| chunk_text := None |} rest => received rest
  | _ => ""
  end.

(** The exception that interrupts the iteration, if any. *)
Fixpoint stream_failure (response : Stream) : option string :=
  match response with
  | StreamEnd => None
  | StreamRaise e => Some e
  | StreamChunk _ rest => stream_failure rest
  end.

(** The provider fails request number [n] with an error the retry loop
    takes for an overload. *)
Definition OverloadedAt (provider : nat -> Request -> ProviderResult)
    (n : nat) : Prop :=
  forall r, exists e, provider n r = Raise e /\ is_overloaded e = true.

(** The provider answers request number [n]. *)
Definition AnswersAt (provider : nat -> Request -> ProviderResult)
    (n : nat) : Prop :=
  forall r, exists response chat, provider n r = Ok response chat.

(** The conversation once the greeting of lines 171-175 is in place. *)
Definition greeted (msgs : list Message) : list Message :=
  match msgs with
  | [] => [ {| role := "assistant"; content := greeting |} ]
  | _ :: _ => msgs
  end.

(** The prompt a run of the script acts on: [st.chat_input] returned a
    non-empty string. *)
Definition submitted (inp : Inputs) : option string :=
  match chat_input inp with
  | Some prompt => if PyStr.truthy prompt then Some prompt else None
  | None => None
  end.

Definition user_message (prompt : string) : Message :=
  {| role := "user"; content := prompt |}.

Definition assistant_message (full_response : string) : Message :=
  {| role := "assistant"; content := full_response |}.

(** The state in which [main] calls the completion client: the user's
    message has been appended. *)
Definition with_user_message (prompt : string) (s : State) : State :=
  {| calls := calls s; messages := (messages s ++ [user_message prompt])%list;
     chat_session := chat_session s; google_api_key := google_api_key s |}.

(** The history argument of that call (lines 198-203). *)
Definition history_argument (prompt : string) (s : State) : option (list Turn) :=
  match chat_session s with
  | Some _ => Some (build_history (messages s ++ [user_message prompt]))
  | None => None
  end.

(** The text recorded for the assistant, by what the client returned. *)
Definition reply_text (c : Outcome Completion) : string :=
  match c with
  | Val (Reply response _) =>
      match stream_failure response with
      | Some e => "Error while streaming response: " ++ e
      | None => received response
      end
  | _ => apology
  end.

(** The chat stored in the session state after the turn. *)
Definition session_after (before : option ChatSession) (c : Outcome Completion)
    : option ChatSession :=
  match before, c with
  | Some chat, _ => Some chat
  | None, Val (Reply _ chat) => Some chat
  | None, _ => None
  end.

(** A conversation with one turn behind it and a chat session stored. *)
Definition returning_patient : State :=
  {| calls := 0;
     messages := [user_message "hi"; assistant_message "hello"];
     chat_session := Some (Chat 0);
     google_api_key := None |}.

(** The state in which a run of the script reaches line 178, once the
    set-up has succeeded: the greeting is in place and a key typed into the
    sidebar has been cached. *)
Definition ready_state (inp : Inputs) (s : State) : State :=
  {| calls := calls s; messages := greeted (messages s);
     chat_session := chat_session s;
     google_api_key := google_api_key (final (setup_google_api inp s)) |}.

(** What the script draws before the set-up. *)
Definition header : list Event :=
  [ Title "Healthcare Assistant";
    Caption "Quick medical guidance - Always consult a doctor for proper diagnosis";
    SidebarTitle "Settings";
    SidebarInfo "This chatbot provides preliminary health guidance. Always consult healthcare professionals for accurate diagnosis and treatment." ].

(** Whether the [except] clause gets through its warning and its wait:
    the three numbers of the warning can be converted and the delay is a
    length [time.sleep] accepts. *)
Definition can_retry (max_retries retries retry_delay : Z) : bool :=
  (Z.abs retry_delay <? int_str_limit) && (Z.abs retries <? int_str_limit)
  && (Z.abs max_retries <? int_str_limit)
  && fits_pytime retry_delay && (0 <=? retry_delay).

(** The same for a loop that has counted [retries] retries and reached the
    delay [retry_delay]: what is still to come can be written and waited
    for. *)
Definition Granted (max_retries retries retry_delay : Z) : Prop :=
  0 <= retries <= max_retries /\
  max_retries < int_str_limit /\
  0 <= retry_delay /\
  retry_delay * 2 ^ (max_retries - retries - 1) <= sleep_max.

(** The parameters for which every wait the loop may ask for is granted
    and every warning can be written: a cap that is not negative and has at
    most 4300 digits, and a delay that is not negative and whose last
    doubling, [retry_delay * 2 ^ (max_retries - 1)], is at most
    [sleep_safe]. *)
Definition InRange (max_retries retry_delay : Z) : Prop :=
  0 <= max_retries < int_str_limit /\
  0 <= retry_delay /\
  retry_delay * 2 ^ (max_retries - 1) <= sleep_safe.

(** The events of [k] rounds of the loop that end in a retry, starting
    with [retries] retries counted and the delay [retry_delay]: a request,
    the warning, the wait. *)
Fixpoint retry_rounds (q : Request) (max_retries : Z) (k : nat)
    (retries retry_delay : Z) : list Event :=
  match k with
  | O => []
  | S k' =>
      Send q :: Warning (retry_warning retry_delay (retries + 1) max_retries)
      :: Sleep retry_delay
      :: retry_rounds q max_retries k' (retries + 1) (retry_delay * 2)
  end.

(** Messages shown with [st.warning]. *)
Fixpoint warnings (t : list Event) : list string :=
  match t with
  | [] => []
  | Warning w :: t' => w :: warnings t'
  | _ :: t' => warnings t'
  end.

(** What the message placeholder was asked to show, in order. *)
Fixpoint placeholders (t : list Event) : list string :=
  match t with
  | [] => []
  | Placeholder p :: t' => p :: placeholders t'
  | _ :: t' => placeholders t'
  end.

(** The keys handed to [genai.configure]. *)
Fixpoint configured (t : list Event) : list string :=
  match t with
  | [] => []
  | Configure k :: t' => k :: configured t'
  | _ :: t' => configured t'
  end.

(** The number of times the key input was drawn in the sidebar. *)
Fixpoint key_prompts (t : list Event) : nat :=
  match t with
  | [] => 0
  | SidebarTextInput _ :: t' => S (key_prompts t')
  | _ :: t' => key_prompts t'
  end.

(** The time spent in back-off waits. *)
Definition total_sleep (t : list Event) : Z := fold_right Z.add 0 (sleeps t).

(** The roles the script itself writes into the conversation. *)
Definition StoreRole (m : Message) : Prop :=
  role m = "user" \/ role m = "assistant".

(** The roles of the provider's turn format. *)
Definition ApiRole (t : Turn) : Prop :=
  turn_role t = "model" \/ turn_role t = "user".

(** [p] is an initial part of [s]. *)
Definition Prefix (p s : string) : Prop := exists rest, s = p ++ rest.

(** A key typed into the sidebar, nothing in the environment; the
    configuration call answers as [check] says. *)
Definition typing (k : string) (check : string -> option string)
    (prompt : option string) : Inputs :=
  {| env_key := None; key_input := k; configure_error := check;
     chat_input := prompt |}.

Definition accept_all : string -> option string := fun _ => None.

Definition reject_all (e : string) : string -> option string := fun _ => Some e.

(** ** Facts about strings *)

Module PyStrFacts.
Import PyStr.

Lemma startswith_app (needle post : string) :
  startswith needle (needle ++ post) = true.
Proof.
  induction needle as [|a n IH]; simpl; [reflexivity|].
  now rewrite Ascii.eqb_refl.
Qed.

Lemma startswith_split (needle hay : string) :
  startswith needle hay = true -> exists post, hay = needle ++ post.
Proof.
  revert hay; induction needle as [|a n IH]; intros hay H.
  - now exists hay.
  - destruct hay as [|b h]; simpl in H; [discriminate|].
    apply andb_true_iff in H as [Hab Hn].
    apply Ascii.eqb_eq in Hab; subst b.
    destruct (IH _ Hn) as [post ->]. now exists post.
Qed.

Lemma startswith_contains (needle hay : string) :
  startswith needle hay = true -> contains needle hay = true.
Proof. intros H. destruct hay; simpl; now rewrite H. Qed.

Lemma contains_Substring (needle hay : string) :
  contains needle hay = true <-> Substring needle hay.
Proof.
  split.
  - induction hay as [|b h IH]; simpl; intros H.
    + apply orb_true_iff in H as [H|H]; [|discriminate].
      destruct (startswith_split _ _ H) as [post E].
      now exists "", post.
    + apply orb_true_iff in H as [H|H].
      * destruct (startswith_split _ _ H) as [post E].
        now exists "", post.
      * destruct (IH H) as (pre & post & ->).
        now exists (String b pre), post.
  - intros (pre & post & ->).
    induction pre as [|c pre IH]; simpl.
    + apply startswith_contains, startswith_app.
    + rewrite IH. apply orb_true_r.
Qed.

Lemma lower_app (a b : string) : lower (a ++ b) = lower a ++ lower b.
Proof. induction a as [|c a IH]; simpl; [reflexivity | now rewrite IH]. Qed.

Lemma lower_split (h a b : string) :
  lower h = a ++ b -> exists x y, h = x ++ y /\ lower x = a /\ lower y = b.
Proof.
  revert h; induction a as [|c a IH]; intros h H.
  - now exists "", h.
  - destruct h as [|d h]; simpl in H; [discriminate|].
    injection H as Hc Ht.
    destruct (IH _ Ht) as (x & y & -> & Hx & Hy).
    exists (String d x), y. simpl. now rewrite Hc, Hx.
Qed.

Lemma contains_lower_SubstringCI (needle hay : string) :
  contains (lower needle) (lower hay) = true <-> SubstringCI needle hay.
Proof.
  rewrite contains_Substring. split.
  - intros (pre & post & E).
    destruct (lower_split _ _ _ E) as (x & y & -> & Hx & Hy).
    destruct (lower_split _ _ _ Hy) as (m & z & -> & Hm & Hz).
    now exists x, m, z.
  - intros (pre & mid & post & -> & Hm).
    exists (lower pre), (lower post).
    now rewrite !lower_app, Hm.
Qed.

End PyStrFacts.

(** The test of line 126 holds exactly when the error text contains [503]
    and, up to the case of its letters, [overloaded]. *)
Lemma is_overloaded_spec (e : string) :
  is_overloaded e = true <->
  PyStr.Substring "503" e /\ PyStr.SubstringCI "overloaded" e.
Proof.
  unfold is_overloaded. rewrite andb_true_iff.
  rewrite PyStrFacts.contains_Substring.
  change "overloaded" with (PyStr.lower "overloaded") at 1.
  now rewrite PyStrFacts.contains_lower_SubstringCI.
Qed.

(** ** The retry loop, pass by pass *)

Lemma advance_0 (s : State) : advance 0 s = s.
Proof. now destruct s. Qed.

Lemma advance_advance (n m : nat) (s : State) :
  advance n (advance m s) = advance (n + m) s.
Proof. unfold advance; simpl. f_equal. lia. Qed.

Lemma requests_app (t u : list Event) :
  requests (t ++ u) = (requests t ++ requests u)%list.
Proof.
  induction t as [|e t IH]; simpl; [reflexivity|].
  destruct e; simpl; now rewrite ?IH.
Qed.

Lemma sleeps_app (t u : list Event) :
  sleeps (t ++ u) = (sleeps t ++ sleeps u)%list.
Proof.
  induction t as [|e t IH]; simpl; [reflexivity|].
  destruct e; simpl; now rewrite ?IH.
Qed.

Lemma errors_app (t u : list Event) :
  errors (t ++ u) = (errors t ++ errors u)%list.
Proof.
  induction t as [|e t IH]; simpl; [reflexivity|].
  destruct e; simpl; now rewrite ?IH.
Qed.

Lemma doubling_length (n : nat) (d : Z) : length (doubling n d) = n.
Proof. revert d; induction n; intros d; simpl; [reflexivity | now rewrite IHn]. Qed.

Lemma doubling_snoc (n : nat) (d : Z) :
  doubling (S n) d = (doubling n d ++ [d * 2 ^ Z.of_nat n])%list.
Proof.
  revert d; induction n as [|n IH]; intros d.
  - simpl. now rewrite Z.mul_1_r.
  - change (doubling (S (S n)) d) with (d :: doubling (S n) (d * 2)).
    rewrite IH.
    change (doubling (S n) d) with (d :: doubling n (d * 2)).
    rewrite <- app_comm_cons. do 3 f_equal.
    rewrite Nat2Z.inj_succ, Z.pow_succ_r by lia. ring.
Qed.

Lemma doubling_Doubles (n : nat) (d : Z) : Doubles (doubling n d).
Proof.
  revert d; induction n as [|n IH]; intros d; [exact I|].
  specialize (IH (d * 2)). destruct n as [|n]; [exact I|].
  change (d * 2 = 2 * d /\ Doubles (doubling (S n) (d * 2))).
  split; [ring | exact IH].
Qed.

Lemma warnings_app (t u : list Event) :
  warnings (t ++ u) = (warnings t ++ warnings u)%list.
Proof.
  induction t as [|e t IH]; simpl; [reflexivity|].
  destruct e; simpl; now rewrite ?IH.
Qed.

(** *** Lengths and numbers the [except] clause can handle *)

Lemma fits_pytime_range (seconds : Z) :
  fits_pytime seconds = true <-> - sleep_max <= seconds <= sleep_max.
Proof.
  unfold fits_pytime, sleep_max.
  rewrite andb_true_iff, !Z.leb_le. lia.
Qed.

Lemma sleep_safe_le_max : sleep_safe <= sleep_max.
Proof. unfold sleep_safe, sleep_max. lia. Qed.

Lemma sleep_max_lt_limit : sleep_max < int_str_limit.
Proof. vm_compute. reflexivity. Qed.

Lemma time_sleep_granted (seconds : Z) (s : State) :
  0 <= seconds <= sleep_max ->
  time_sleep seconds s = (Val tt, s, [Sleep seconds]).
Proof.
  intros H. unfold time_sleep.
  replace (fits_pytime seconds) with true
    by (symmetry; apply fits_pytime_range; lia).
  replace (seconds <? 0) with false by (symmetry; apply Z.ltb_ge; lia).
  reflexivity.
Qed.

Lemma time_sleep_refused (seconds : Z) (s : State) :
  fits_pytime seconds && (0 <=? seconds) = false ->
  exists x, time_sleep seconds s = (Raised x, s, []).
Proof.
  intros H. unfold time_sleep. destruct (fits_pytime seconds); simpl in *.
  - apply Z.leb_gt in H. apply Z.ltb_lt in H. rewrite H. now eexists.
  - now eexists.
Qed.

Lemma py_str_ok (n : Z) (s : State) :
  Z.abs n < int_str_limit -> py_str n s = (Val (PyStr.of_int n), s, []).
Proof.
  intros H. unfold py_str.
  replace (int_str_limit <=? Z.abs n) with false
    by (symmetry; apply Z.leb_gt; exact H).
  reflexivity.
Qed.

Lemma py_str_cases (n : Z) (s : State) :
  ((Z.abs n <? int_str_limit) = true /\ py_str n s = (Val (PyStr.of_int n), s, []))
  \/ ((Z.abs n <? int_str_limit) = false /\ exists x, py_str n s = (Raised x, s, [])).
Proof.
  destruct (Z.abs n <? int_str_limit) eqn:E.
  - left. split; [reflexivity|]. apply py_str_ok. now apply Z.ltb_lt.
  - right. split; [reflexivity|]. unfold py_str.
    apply Z.ltb_ge in E. apply Z.leb_le in E. rewrite E. now eexists.
Qed.

(** The f-string either yields the text of the warning or raises, with no
    effect on the state or the trace. *)
Lemma format_retry_warning_cases (retry_delay retries max_retries : Z) (s : State) :
  ((Z.abs retry_delay <? int_str_limit) && (Z.abs retries <? int_str_limit)
   && (Z.abs max_retries <? int_str_limit) = true /\
   format_retry_warning retry_delay retries max_retries s
   = (Val (retry_warning retry_delay retries max_retries), s, []))
  \/ ((Z.abs retry_delay <? int_str_limit) && (Z.abs retries <? int_str_limit)
      && (Z.abs max_retries <? int_str_limit) = false /\
      exists x, format_retry_warning retry_delay retries max_retries s
                = (Raised x, s, [])).
Proof.
  unfold format_retry_warning, bind.
  destruct (py_str_cases retry_delay s) as [[-> ->]|[-> (x & ->)]];
    [|right; split; [reflexivity | now exists x]].
  destruct (py_str_cases retries s) as [[-> ->]|[-> (x & ->)]];
    [|right; split; [reflexivity | now exists x]].
  destruct (py_str_cases max_retries s) as [[-> ->]|[-> (x & ->)]];
    [|right; split; [reflexivity | now exists x]].
  left. split; reflexivity.
Qed.

Lemma can_retry_granted (max_retries retries retry_delay : Z) :
  0 <= retries <= max_retries -> max_retries < int_str_limit ->
  0 <= retry_delay <= sleep_max ->
  can_retry max_retries retries retry_delay = true.
Proof.
  intros Hr Hm Hd. pose proof sleep_max_lt_limit as Hl.
  unfold can_retry. rewrite !andb_true_iff, !Z.ltb_lt, Z.leb_le, fits_pytime_range.
  repeat split; lia.
Qed.

(** The loop can go on: from a state within the granted range, one more
    retry is handled and leaves a state within the range. *)
Lemma granted_step (max_retries retries retry_delay : Z) :
  Granted max_retries retries retry_delay ->
  retries + 1 <= max_retries ->
  can_retry max_retries (retries + 1) retry_delay = true /\
  Granted max_retries (retries + 1) (retry_delay * 2).
Proof.
  intros (Hr & Hm & Hd & Hs) Hle.
  assert (Hp : 0 < 2 ^ (max_retries - retries - 1))
    by (apply Z.pow_pos_nonneg; lia).
  split.
  - apply can_retry_granted; try lia. nia.
  - unfold Granted. repeat split; try lia.
    destruct (Z.eq_dec (max_retries - retries - 1) 0) as [E|E].
    + replace (max_retries - (retries + 1) - 1) with (-1) by lia.
      rewrite Z.pow_neg_r by lia. unfold sleep_max. lia.
    + replace (max_retries - retries - 1)
        with (Z.succ (max_retries - (retries + 1) - 1)) in Hs by lia.
      rewrite Z.pow_succ_r in Hs by lia. lia.
Qed.

Lemma in_range_granted (max_retries retry_delay : Z) :
  InRange max_retries retry_delay -> Granted max_retries 0 retry_delay.
Proof.
  intros (Hm & Hd & Hs). pose proof sleep_safe_le_max.
  unfold Granted. rewrite Z.sub_0_r. repeat split; lia.
Qed.

Lemma requests_retry_rounds q max_retries k : forall retries retry_delay,
  requests (retry_rounds q max_retries k retries retry_delay) = repeat q k.
Proof. induction k as [|k IH]; intros; simpl; [reflexivity | now rewrite IH]. Qed.

Lemma sleeps_retry_rounds q max_retries k : forall retries retry_delay,
  sleeps (retry_rounds q max_retries k retries retry_delay) = doubling k retry_delay.
Proof. induction k as [|k IH]; intros; simpl; [reflexivity | now rewrite IH]. Qed.

Lemma errors_retry_rounds q max_retries k : forall retries retry_delay,
  errors (retry_rounds q max_retries k retries retry_delay) = [].
Proof. induction k as [|k IH]; intros; simpl; [reflexivity | now rewrite IH]. Qed.

Lemma warnings_retry_rounds q max_retries k : forall retries retry_delay,
  length (warnings (retry_rounds q max_retries k retries retry_delay)) = k.
Proof. induction k as [|k IH]; intros; simpl; [reflexivity | now rewrite IH]. Qed.

Section ClientFacts.

Variable provider : nat -> Request -> ProviderResult.
Variable prompt : string.
Variable conversation_history : option (list Turn).
Variable max_retries : Z.

Let req := build_request prompt conversation_history.
Let pass := attempt provider prompt conversation_history max_retries.
Let loop := fun fuel =>
  retry_loop provider fuel prompt conversation_history max_retries.

Lemma attempt_ok retries retry_delay s response chat :
  provider (calls s) req = Ok response chat ->
  pass retries retry_delay s
  = (Val (Return (Reply response chat)), advance 1 s, [Send req]).
Proof.
  intros H. subst pass req.
  cbv [attempt try_except bind send ret]. now rewrite H.
Qed.

Lemma attempt_retry retries retry_delay s e :
  provider (calls s) req = Raise e ->
  is_overloaded e = true ->
  retries + 1 <= max_retries ->
  can_retry max_retries (retries + 1) retry_delay = true ->
  pass retries retry_delay s
  = (Val (Continue (retries + 1) (retry_delay * 2)), advance 1 s,
     [Send req; Warning (retry_warning retry_delay (retries + 1) max_retries);
      Sleep retry_delay]).
Proof.
  intros H Hov Hle Hcan. subst pass req.
  unfold can_retry in Hcan. rewrite !andb_true_iff in Hcan.
  destruct Hcan as ((Hfmt & Hfits) & Hpos).
  rewrite <- !andb_true_iff in Hfmt.
  apply fits_pytime_range in Hfits. apply Z.leb_le in Hpos.
  cbv [attempt try_except bind send ret emit]. rewrite H, Hov.
  apply Z.leb_le in Hle. rewrite Hle.
  destruct (format_retry_warning_cases retry_delay (retries + 1) max_retries
              (advance 1 s)) as [[_ E]|[E _]]; [|congruence].
  change {| calls := S (calls s); messages := messages s;
            chat_session := chat_session s; google_api_key := google_api_key s |}
    with (advance 1 s).
  rewrite E, time_sleep_granted by lia. reflexivity.
Qed.

Lemma attempt_escape retries retry_delay s e :
  provider (calls s) req = Raise e ->
  is_overloaded e = true ->
  retries + 1 <= max_retries ->
  can_retry max_retries (retries + 1) retry_delay = false ->
  exists x t,
    pass retries retry_delay s = (Raised x, advance 1 s, (Send req :: t)%list) /\
    (t = [] \/
     t = [Warning (retry_warning retry_delay (retries + 1) max_retries)]).
Proof.
  intros H Hov Hle Hcan. subst pass req.
  cbv [attempt try_except bind send ret emit]. rewrite H, Hov.
  apply Z.leb_le in Hle. rewrite Hle.
  change {| calls := S (calls s); messages := messages s;
            chat_session := chat_session s; google_api_key := google_api_key s |}
    with (advance 1 s).
  unfold can_retry in Hcan. rewrite <- andb_assoc in Hcan.
  destruct (format_retry_warning_cases retry_delay (retries + 1) max_retries
              (advance 1 s)) as [[Hf ->]|[_ (x & ->)]].
  - rewrite Hf in Hcan. cbn [andb] in Hcan.
    destruct (time_sleep_refused retry_delay (advance 1 s) Hcan) as (x & ->).
    exists x. eexists. split; [reflexivity | now right].
  - exists x, []. split; [reflexivity | now left].
Qed.

Lemma attempt_negative_delay retries retry_delay s e :
  provider (calls s) req = Raise e ->
  is_overloaded e = true ->
  0 <= retries + 1 <= max_retries ->
  max_retries < int_str_limit ->
  - sleep_max <= retry_delay < 0 ->
  pass retries retry_delay s
  = (Raised "sleep length must be non-negative", advance 1 s,
     [Send req; Warning (retry_warning retry_delay (retries + 1) max_retries)]).
Proof.
  intros H Hov Hle Hm Hd. subst pass req. pose proof sleep_max_lt_limit as Hl.
  cbv [attempt try_except bind send ret emit]. rewrite H, Hov.
  replace (retries + 1 <=? max_retries) with true by (symmetry; apply Z.leb_le; lia).
  change {| calls := S (calls s); messages := messages s;
            chat_session := chat_session s; google_api_key := google_api_key s |}
    with (advance 1 s).
  destruct (format_retry_warning_cases retry_delay (retries + 1) max_retries
              (advance 1 s)) as [[_ ->]|[E _]].
  - unfold time_sleep.
    replace (fits_pytime retry_delay) with true
      by (symmetry; apply fits_pytime_range; lia).
    replace (retry_delay <? 0) with true by (symmetry; apply Z.ltb_lt; lia).
    reflexivity.
  - rewrite !andb_false_iff, !Z.ltb_ge in E. lia.
Qed.

Lemma attempt_give_up retries retry_delay s e :
  provider (calls s) req = Raise e ->
  is_overloaded e = true ->
  max_retries < retries + 1 ->
  pass retries retry_delay s
  = (Val (Return NoReply), advance 1 s, [Send req; Error cap_error]).
Proof.
  intros H Hov Hgt. subst pass req.
  cbv [attempt try_except bind send ret emit]. rewrite H, Hov.
  apply Z.leb_gt in Hgt. now rewrite Hgt.
Qed.

Lemma attempt_other retries retry_delay s e :
  provider (calls s) req = Raise e ->
  is_overloaded e = false ->
  pass retries retry_delay s
  = (Val (Return NoReply), advance 1 s,
     [Send req; Error ("Error generating response: " ++ e)]).
Proof.
  intros H Hov. subst pass req.
  cbv [attempt try_except bind send ret emit]. now rewrite H, Hov.
Qed.

(** One unfolding of the loop. *)
Lemma retry_loop_step fuel retries retry_delay s :
  loop (S fuel) retries retry_delay s
  = if retries <=? max_retries then
      match pass retries retry_delay s with
      | (Val (Return v), s1, t1) => (Val v, s1, t1)
      | (Val (Continue retries' retry_delay'), s1, t1) =>
          let '(o, s2, t2) := loop fuel retries' retry_delay' s1 in
          (o, s2, (t1 ++ t2)%list)
      | (Raised e, s1, t1) => (Raised e, s1, t1)
      | (Halted, s1, t1) => (Halted, s1, t1)
      | (Exhausted, s1, t1) => (Exhausted, s1, t1)
      end
    else (Val BareNone, s, []).
Proof.
  subst loop pass. simpl. destruct (retries <=? max_retries); [|reflexivity].
  unfold bind at 1.
  destruct (attempt _ _ _ _ _ _ s) as [[[c| | |] s1] t1]; try reflexivity.
  destruct c as [v|r' d']; [|reflexivity].
  unfold ret. now rewrite app_nil_r.
Qed.

(** The five ways a pass can go, read off the provider's answer. *)
Lemma attempt_inv retries retry_delay s :
  (exists response chat,
      provider (calls s) req = Ok response chat /\
      pass retries retry_delay s
      = (Val (Return (Reply response chat)), advance 1 s, [Send req]))
  \/ (exists e,
      provider (calls s) req = Raise e /\ is_overloaded e = true /\
      retries + 1 <= max_retries /\
      can_retry max_retries (retries + 1) retry_delay = true /\
      pass retries retry_delay s
      = (Val (Continue (retries + 1) (retry_delay * 2)), advance 1 s,
         [Send req; Warning (retry_warning retry_delay (retries + 1) max_retries);
          Sleep retry_delay]))
  \/ (exists e,
      provider (calls s) req = Raise e /\ is_overloaded e = true /\
      retries + 1 <= max_retries /\
      can_retry max_retries (retries + 1) retry_delay = false /\
      exists x t,
        pass retries retry_delay s
        = (Raised x, advance 1 s, (Send req :: t)%list) /\
        (t = [] \/
         t = [Warning (retry_warning retry_delay (retries + 1) max_retries)]))
  \/ (exists e,
      provider (calls s) req = Raise e /\ is_overloaded e = true /\
      max_retries < retries + 1 /\
      pass retries retry_delay s
      = (Val (Return NoReply), advance 1 s, [Send req; Error cap_error]))
  \/ (exists e,
      provider (calls s) req = Raise e /\ is_overloaded e = false /\
      pass retries retry_delay s
      = (Val (Return NoReply), advance 1 s,
         [Send req; Error ("Error generating response: " ++ e)])).
Proof.
  destruct (provider (calls s) req) as [response chat|e] eqn:H.
  - left. exists response, chat. split; [reflexivity|]. now apply attempt_ok.
  - right. destruct (is_overloaded e) eqn:Hov.
    + destruct (Z_le_gt_dec (retries + 1) max_retries) as [Hle|Hgt].
      * destruct (can_retry max_retries (retries + 1) retry_delay) eqn:Hcan.
        -- left. exists e. repeat split; try assumption.
           now apply attempt_retry with (e := e).
        -- right; left. exists e. repeat split; try assumption.
           now apply attempt_escape with (e := e).
      * right; right; left. exists e. repeat split; try assumption; [lia|].
        apply attempt_give_up with (e := e); [assumption..|lia].
    + right; right; right. exists e. repeat split; try assumption.
      now apply attempt_other.
Qed.

(** The loop touches nothing of the state but the provider's call count,
    and every request it sends is the one built from its arguments. *)
Lemma retry_loop_frame fuel retries retry_delay s :
  let r := loop fuel retries retry_delay s in
  final r = advance (length (requests (trace r))) s /\
  Forall (eq req) (requests (trace r)).
Proof.
  revert retries retry_delay s.
  induction fuel as [|fuel IH]; intros retries retry_delay s.
  - simpl. split; [now rewrite advance_0 | constructor].
  - cbv zeta. rewrite retry_loop_step.
    destruct (retries <=? max_retries);
      [|simpl; split; [now rewrite advance_0 | constructor]].
    destruct (attempt_inv retries retry_delay s)
      as [(response & chat & _ & ->)
         |[(e & _ & _ & _ & _ & ->)
          |[(e & _ & _ & _ & _ & x & t & -> & Ht)
           |[(e & _ & _ & _ & ->)|(e & _ & _ & ->)]]]];
      try (simpl; split; [reflexivity | repeat constructor]).
    + specialize (IH (retries + 1) (retry_delay * 2) (advance 1 s)).
      cbv zeta in IH.
      destruct (loop fuel (retries + 1) (retry_delay * 2) (advance 1 s))
        as [[o s2] t2].
      unfold final, trace in *. simpl in *. destruct IH as [-> IH]. split.
      * rewrite advance_advance. f_equal. lia.
      * now constructor.
    + destruct Ht as [-> | ->]; simpl; split;
        reflexivity || (repeat constructor).
Qed.

(** Every pass returns, raises or adds one to the retries: the loop cannot
    use up more fuel than the retries it has left, plus two. *)
Lemma retry_loop_fuel fuel retries retry_delay s :
  (Z.to_nat (max_retries + 1 - retries) < fuel)%nat ->
  outcome (loop fuel retries retry_delay s) <> Exhausted.
Proof.
  revert retries retry_delay s.
  induction fuel as [|fuel IH]; intros retries retry_delay s Hf; [lia|].
  rewrite retry_loop_step.
  destruct (retries <=? max_retries) eqn:Hg; [|discriminate].
  apply Z.leb_le in Hg.
  destruct (attempt_inv retries retry_delay s)
    as [(response & chat & _ & ->)
       |[(e & _ & _ & _ & _ & ->)
        |[(e & _ & _ & _ & _ & x & t & -> & _)
         |[(e & _ & _ & _ & ->)|(e & _ & _ & ->)]]]];
    try discriminate.
  specialize (IH (retries + 1) (retry_delay * 2) (advance 1 s)).
  destruct (loop fuel (retries + 1) (retry_delay * 2) (advance 1 s))
    as [[o s2] t2].
  unfold outcome in *; simpl in *. apply IH. lia.
Qed.

(** Within the granted range the loop is some number [k] of rounds that
    end in a retry, then one last request, answered or followed by one
    [st.error]; it returns a pair. *)
Lemma retry_loop_granted fuel : forall retries retry_delay s,
  Granted max_retries retries retry_delay ->
  (Z.to_nat (max_retries - retries) < fuel)%nat ->
  let r := loop fuel retries retry_delay s in
  exists k ending,
    Z.of_nat k <= max_retries - retries /\
    trace r = (retry_rounds req max_retries k retries retry_delay
               ++ Send req :: ending)%list /\
    ((exists response chat, outcome r = Val (Reply response chat) /\ ending = [])
     \/ (outcome r = Val NoReply /\
         (ending = [Error cap_error] \/
          exists e, is_overloaded e = false /\
                    ending = [Error ("Error generating response: " ++ e)]))).
Proof.
  induction fuel as [|fuel IH]; intros retries retry_delay s Hg Hf; [lia|].
  cbv zeta. rewrite retry_loop_step.
  assert (Hr : retries <= max_retries) by (destruct Hg as (? & _); lia).
  apply Z.leb_le in Hr as Hleb. rewrite Hleb.
  destruct (attempt_inv retries retry_delay s)
    as [(response & chat & _ & ->)
       |[(e & _ & _ & Hle & _ & ->)
        |[(e & _ & _ & Hle & Hcan & _)
         |[(e & _ & _ & _ & ->)|(e & _ & Hov & ->)]]]].
  - exists 0%nat, []. split; [lia|]. split; [reflexivity|].
    left. now exists response, chat.
  - destruct (granted_step _ _ _ Hg Hle) as [_ Hg'].
    specialize (IH (retries + 1) (retry_delay * 2) (advance 1 s) Hg').
    cbv zeta in IH.
    destruct (loop fuel (retries + 1) (retry_delay * 2) (advance 1 s))
      as [[o s2] t2].
    unfold outcome, trace in *; cbn [fst snd] in *.
    destruct IH as (k & ending & Hk & -> & Hend); [lia|].
    exists (S k), ending. split; [lia|]. split; [reflexivity | exact Hend].
  - destruct (granted_step _ _ _ Hg Hle) as [Hcan' _]. congruence.
  - exists 0%nat, [Error cap_error]. split; [lia|]. split; [reflexivity|].
    right. split; [reflexivity | now left].
  - exists 0%nat, [Error ("Error generating response: " ++ e)].
    split; [lia|]. split; [reflexivity|].
    right. split; [reflexivity|]. right. now exists e.
Qed.

(** With the retries and delays within the granted range, the loop returns
    a pair: the reply, or [(None, None)] together with one [st.error]. *)
Lemma retry_loop_returns fuel retries retry_delay s :
  Granted max_retries retries retry_delay ->
  (Z.to_nat (max_retries - retries) < fuel)%nat ->
  let r := loop fuel retries retry_delay s in
  ((exists response chat, outcome r = Val (Reply response chat) /\
                          errors (trace r) = [])
   \/ (outcome r = Val NoReply /\ exists e, errors (trace r) = [e]))
  /\ requests (trace r) <> [].
Proof.
  intros Hg Hf. cbv zeta.
  destruct (retry_loop_granted fuel retries retry_delay s Hg Hf)
    as (k & ending & _ & -> & Hend).
  rewrite errors_app, errors_retry_rounds, requests_app. cbn [app errors requests].
  split.
  - destruct Hend as [(response & chat & Ho & ->)|[Ho [-> | (e & _ & ->)]]].
    + left. now exists response, chat.
    + right. split; [exact Ho | now eexists].
    + right. split; [exact Ho | now eexists].
  - intros H. apply app_eq_nil in H as [_ H]. discriminate H.
Qed.

(** Whatever the parameters and the provider, the waits the loop completes
    are a run of doublings of the delay, no longer than the retries it had
    left. *)
Lemma retry_loop_sleeps fuel : forall retries retry_delay s,
  retries <= max_retries ->
  exists k,
    Z.of_nat k <= max_retries - retries /\
    sleeps (trace (loop fuel retries retry_delay s)) = doubling k retry_delay.
Proof.
  induction fuel as [|fuel IH]; intros retries retry_delay s Hr.
  - exists 0%nat. split; [lia | reflexivity].
  - rewrite retry_loop_step.
    apply Z.leb_le in Hr as Hleb. rewrite Hleb.
    destruct (attempt_inv retries retry_delay s)
      as [(response & chat & _ & ->)
         |[(e & _ & _ & Hle & _ & ->)
          |[(e & _ & _ & _ & _ & x & t & -> & Ht)
           |[(e & _ & _ & _ & ->)|(e & _ & _ & ->)]]]];
      try (exists 0%nat; split; [lia | reflexivity]).
    + destruct (IH (retries + 1) (retry_delay * 2) (advance 1 s) Hle)
        as (k & Hk & Hsl).
      destruct (loop fuel (retries + 1) (retry_delay * 2) (advance 1 s))
        as [[o s2] t2].
      unfold trace in *; cbn [snd] in *.
      exists (S k). split; [lia|]. rewrite sleeps_app, Hsl. reflexivity.
    + exists 0%nat. split; [lia|]. destruct Ht as [-> | ->]; reflexivity.
Qed.

End ClientFacts.

(** ** Runs against an overloaded provider *)

Section ClientRuns.

Variable provider : nat -> Request -> ProviderResult.
Variable prompt : string.
Variable conversation_history : option (list Turn).
Variable max_retries : Z.

Let req := build_request prompt conversation_history.
Let loop := fun fuel =>
  retry_loop provider fuel prompt conversation_history max_retries.

(** [k] overload failures in a row, with [k] retries still allowed, are
    [k] rounds of request, warning and wait, and leave the loop where it
    would be with [k] more retries counted and the delay doubled [k]
    times. *)
Lemma retry_loop_failures k : forall fuel retries retry_delay s,
  Granted max_retries retries retry_delay ->
  retries + Z.of_nat k <= max_retries ->
  (forall i, (i < k)%nat -> OverloadedAt provider (calls s + i)) ->
  loop (k + fuel)%nat retries retry_delay s
  = let '(o, s2, t2) :=
        loop fuel (retries + Z.of_nat k) (retry_delay * 2 ^ Z.of_nat k)
             (advance k s) in
    (o, s2, (retry_rounds req max_retries k retries retry_delay ++ t2)%list).
Proof.
  induction k as [|k IH]; intros fuel retries retry_delay s Hg Hr Hov.
  - simpl. rewrite Z.add_0_r, Z.mul_1_r, advance_0.
    now destruct (loop fuel retries retry_delay s) as [[o s2] t2].
  - destruct (Hov 0%nat ltac:(lia) req) as (e & He & Hove).
    rewrite Nat.add_0_r in He.
    destruct (granted_step _ _ _ Hg ltac:(lia)) as [Hcan Hg'].
    assert (Hov' : forall i, (i < k)%nat ->
                             OverloadedAt provider (calls (advance 1 s) + i)).
    { intros i Hi. simpl. replace (S (calls s + i)) with (calls s + S i)%nat by lia.
      apply Hov. lia. }
    pose proof (IH fuel (retries + 1) (retry_delay * 2) (advance 1 s)
                  Hg' ltac:(lia) Hov') as Hrun.
    change (S k + fuel)%nat with (S (k + fuel)).
    subst loop. cbv beta in *. rewrite retry_loop_step.
    replace (retries <=? max_retries) with true by (symmetry; apply Z.leb_le; lia).
    rewrite (attempt_retry provider prompt conversation_history max_retries
               retries retry_delay s e He Hove) by (assumption || lia).
    rewrite Hrun. rewrite advance_advance.
    replace (k + 1)%nat with (S k) by lia.
    replace (retries + 1 + Z.of_nat k) with (retries + Z.of_nat (S k)) by lia.
    replace (retry_delay * 2 * 2 ^ Z.of_nat k)
      with (retry_delay * 2 ^ Z.of_nat (S k))
      by (rewrite Nat2Z.inj_succ, Z.pow_succ_r by lia; ring).
    destruct (retry_loop provider fuel prompt conversation_history max_retries
                (retries + Z.of_nat (S k)) (retry_delay * 2 ^ Z.of_nat (S k))
                (advance (S k) s)) as [[o s2] t2].
    reflexivity.
Qed.

(** The provider is overloaded for as long as the loop keeps asking: the
    cap is reached after [max_retries] waits and one more request. *)
Lemma run_all_overloaded retry_delay s :
  Granted max_retries 0 retry_delay ->
  (forall i, (i <= Z.to_nat max_retries)%nat ->
             OverloadedAt provider (calls s + i)) ->
  let r := generate_response_with_retry provider prompt conversation_history
             max_retries retry_delay s in
  outcome r = Val NoReply /\
  final r = advance (S (Z.to_nat max_retries)) s /\
  requests (trace r) = repeat req (S (Z.to_nat max_retries)) /\
  sleeps (trace r) = doubling (Z.to_nat max_retries) retry_delay /\
  errors (trace r) = [cap_error].
Proof.
  intros Hg Hov. cbv zeta. unfold generate_response_with_retry.
  assert (Hm : 0 <= max_retries) by (destruct Hg as (? & _); lia).
  set (n := Z.to_nat max_retries).
  replace (S (Z.to_nat (max_retries + 1))) with (n + 2)%nat by (subst n; lia).
  pose proof (retry_loop_failures n 2%nat 0 retry_delay s Hg
                ltac:(subst n; lia) (fun i Hi => Hov i ltac:(subst n; lia))) as Hrun.
  subst loop. cbv beta in Hrun. rewrite Hrun. clear Hrun.
  replace (0 + Z.of_nat n) with max_retries by (subst n; lia).
  rewrite retry_loop_step, Z.leb_refl.
  destruct (Hov n ltac:(subst n; lia) req) as (e & He & Hove).
  rewrite (attempt_give_up provider prompt conversation_history max_retries
             max_retries _ (advance n s) e) by (simpl; try assumption; try lia;
               now rewrite Nat.add_comm).
  unfold outcome, final, trace; simpl.
  rewrite requests_app, sleeps_app, errors_app, requests_retry_rounds,
    sleeps_retry_rounds, errors_retry_rounds. simpl.
  rewrite advance_advance, app_nil_r. repeat split.
  change (req :: repeat req n) with (repeat req (S n)).
  now rewrite <- repeat_cons.
Qed.

(** [k] overload failures, [k] within the cap, and then an answer: the
    reply comes back after [k] waits. *)
Lemma run_success_after k retry_delay s response chat :
  Granted max_retries 0 retry_delay -> Z.of_nat k <= max_retries ->
  (forall i, (i < k)%nat -> OverloadedAt provider (calls s + i)) ->
  provider (calls s + k)%nat req = Ok response chat ->
  let r := generate_response_with_retry provider prompt conversation_history
             max_retries retry_delay s in
  outcome r = Val (Reply response chat) /\
  final r = advance (S k) s /\
  requests (trace r) = repeat req (S k) /\
  sleeps (trace r) = doubling k retry_delay /\
  errors (trace r) = [].
Proof.
  intros Hg Hk Hov Hok. cbv zeta. unfold generate_response_with_retry.
  replace (S (Z.to_nat (max_retries + 1)))
    with (k + (S (Z.to_nat (max_retries + 1)) - k))%nat by lia.
  pose proof (retry_loop_failures k (S (Z.to_nat (max_retries + 1)) - k)%nat
                0 retry_delay s Hg ltac:(lia) Hov) as Hrun.
  subst loop. cbv beta in Hrun. rewrite Hrun. clear Hrun.
  replace (S (Z.to_nat (max_retries + 1)) - k)%nat
    with (S (Z.to_nat (max_retries + 1) - k)) by lia.
  rewrite retry_loop_step.
  replace (0 + Z.of_nat k <=? max_retries) with true
    by (symmetry; apply Z.leb_le; lia).
  rewrite (attempt_ok provider prompt conversation_history max_retries
             _ _ (advance k s) response chat)
    by (simpl; now rewrite Nat.add_comm).
  unfold outcome, final, trace; simpl.
  rewrite requests_app, sleeps_app, errors_app, requests_retry_rounds,
    sleeps_retry_rounds, errors_retry_rounds. simpl.
  rewrite advance_advance, !app_nil_r. repeat split.
  change (req :: repeat req k) with (repeat req (S k)).
  now rewrite <- repeat_cons.
Qed.

End ClientRuns.

(** ** The orchestrator, step by step *)

Lemma append_nil_r (a : string) : a ++ "" = a.
Proof. induction a as [|c a IH]; simpl; [reflexivity | now rewrite IH]. Qed.

Lemma append_assoc (a b c : string) : (a ++ b) ++ c = a ++ b ++ c.
Proof. induction a as [|x a IH]; simpl; [reflexivity | now rewrite IH]. Qed.

Lemma build_history_map (msgs : list Message) :
  build_history msgs = map to_gemini (removelast msgs).
Proof.
  unfold build_history.
  enough (H : forall l acc,
             fold_left (fun history msg => (history ++ [to_gemini msg])%list) l acc
             = (acc ++ map to_gemini l)%list) by apply (H _ []).
  induction l as [|m l IH]; intros acc; simpl.
  - now rewrite app_nil_r.
  - now rewrite IH, <- app_assoc.
Qed.

(** The history built after the user's message was appended is the
    conversation before it, message by message. *)
Lemma build_history_prior (prior : list Message) (m : Message) :
  build_history (prior ++ [m]) = map to_gemini prior.
Proof. now rewrite build_history_map, removelast_last. Qed.

Lemma for_each_display (msgs : list Message) (s : State) :
  exists t,
    for_each msgs display_message s = (Val tt, s, t) /\ requests t = [].
Proof.
  induction msgs as [|m msgs (t & IH & Ht)].
  - now exists [].
  - exists ([ChatMessage (role m); Markdown (content m)] ++ t)%list.
    simpl for_each. cbv [bind emit display_message] in *. rewrite IH.
    split; [reflexivity | exact Ht].
Qed.

Lemma consume_spec (response : Stream) : forall full_response s,
  exists t,
    consume response full_response s
    = (match stream_failure response with
       | Some e => Raised e
       | None => Val (full_response ++ received response)
       end, s, t) /\ requests t = [].
Proof.
  induction response as [|e|[[txt|]] rest IH]; intros full_response s.
  - exists []. simpl. now rewrite append_nil_r.
  - now exists [].
  - simpl. destruct txt as [|c txt].
    + exact (IH full_response s).
    + cbn [PyStr.truthy].
      destruct (IH (full_response ++ String c txt) s) as (t & E & Ht).
      exists ([Placeholder ((full_response ++ String c txt) ++ cursor); Pace] ++ t)%list.
      cbv [bind emit]. rewrite E. split; [|exact Ht].
      destruct (stream_failure rest); [reflexivity|].
      now rewrite append_assoc.
  - exact (IH full_response s).
Qed.

Lemma render_reply_spec (response : Stream) (chat : ChatSession) (s : State) :
  exists t,
    render_reply (Some response) s
    = (Val (reply_text (Val (Reply response chat))), s, t) /\ requests t = [].
Proof.
  destruct (consume_spec response "" s) as (t & E & Ht).
  unfold render_reply, try_except, bind. rewrite E. simpl.
  destruct (stream_failure response) as [e|].
  - eexists. split; [reflexivity|]. now rewrite requests_app, Ht.
  - eexists. split; [reflexivity|]. now rewrite requests_app, Ht.
Qed.

Lemma setup_google_api_frame (inp : Inputs) (s : State) :
  let r := setup_google_api inp s in
  (outcome r = Val true \/ outcome r = Val false) /\
  calls (final r) = calls s /\
  messages (final r) = messages s /\
  chat_session (final r) = chat_session s /\
  requests (trace r) = [].
Proof.
  cbv zeta. unfold setup_google_api, genai_configure, outcome, final, trace.
  destruct (env_key inp) as [[|c k]|];
    destruct (google_api_key s) as [[|c' k']|] eqn:Hc;
    destruct (key_input inp) as [|c2 k2] eqn:Hk;
    cbv [bind ret negb get try_except emit raise set_google_api_key
         key_truthy PyStr.truthy];
    rewrite ?Hc, ?Hk; cbv iota beta;
    repeat match goal with
           | |- context [configure_error inp ?k] =>
               destruct (configure_error inp k)
           end;
    simpl; auto.
Qed.

(** No key in the environment, none cached, none typed: the set-up warns
    and reports that it is not ready. *)
Lemma setup_google_api_no_key (inp : Inputs) (s : State) :
  key_truthy (env_key inp) = false ->
  google_api_key s = None ->
  key_input inp = "" ->
  setup_google_api inp s
  = (Val false, s,
     [SidebarTextInput "Enter your Google AI API Key:";
      SidebarWarning "Please enter your Google AI API key to continue"]).
Proof.
  intros Henv Hc Hk. unfold setup_google_api.
  cbv [bind ret negb get emit]. rewrite Henv, Hc, Hk. reflexivity.
Qed.

(** The default cap and delay are within the granted range: the waits are
    2, 4 and 8 seconds. *)
Lemma defaults_granted : Granted default_max_retries 0 default_retry_delay.
Proof.
  unfold Granted, default_max_retries, default_retry_delay.
  repeat split; try lia; vm_compute; try reflexivity; discriminate.
Qed.

Section OrchestratorFacts.

Variable provider : nat -> Request -> ProviderResult.

(** With the default cap and delay the client always returns a pair:
    a reply, or [(None, None)]. *)
Lemma generate_response_spec prompt conversation_history s :
  let g := generate_response provider prompt conversation_history s in
  ((exists response chat, outcome g = Val (Reply response chat))
   \/ outcome g = Val NoReply) /\
  final g = advance (length (requests (trace g))) s /\
  Forall (eq (build_request prompt conversation_history)) (requests (trace g)) /\
  requests (trace g) <> [].
Proof.
  cbv zeta. unfold generate_response, generate_response_with_retry.
  destruct (retry_loop_returns provider prompt conversation_history
              default_max_retries (S (Z.to_nat (default_max_retries + 1)))
              0 default_retry_delay s) as [Hout Hne];
    [apply defaults_granted | unfold default_max_retries; simpl; lia |].
  destruct (retry_loop_frame provider prompt conversation_history
              default_max_retries (S (Z.to_nat (default_max_retries + 1)))
              0 default_retry_delay s) as [Hfin Hreq].
  repeat split; try assumption.
  destruct Hout as [(response & chat & H & _)|[H _]];
    [left; now exists response, chat | now right].
Qed.

(** Lines 179-226 in one equation: the turn ends normally, with the
    user's message and the assistant's text appended. *)
Lemma handle_prompt_run prompt s :
  let g := generate_response provider prompt (history_argument prompt s)
             (with_user_message prompt s) in
  exists t,
    handle_prompt provider prompt s
    = (Val tt,
       {| calls := calls (final g);
          messages := (messages s ++ [user_message prompt;
                                      assistant_message (reply_text (outcome g))])%list;
          chat_session := session_after (chat_session s) (outcome g);
          google_api_key := google_api_key s |},
       t)
    /\ requests t = requests (trace g).
Proof.
  cbv zeta.
  destruct (generate_response_spec prompt (history_argument prompt s)
              (with_user_message prompt s)) as (Hout & Hfin & _ & _).
  unfold handle_prompt, history_argument in *.
  cbv [bind append_message emit get].
  change {| calls := calls s;
            messages := (messages s ++ [ {| role := "user"; content := prompt |} ])%list;
            chat_session := chat_session s;
            google_api_key := google_api_key s |}
    with (with_user_message prompt s) in *.
  cbn [chat_session messages with_user_message].
  fold (user_message prompt).
  destruct (chat_session s) as [chat0|] eqn:Hcs.
  - destruct (generate_response provider prompt
                (Some (build_history (messages s ++ [user_message prompt])))
                (with_user_message prompt s)) as [[o s2] t2].
    unfold outcome, final, trace in *. cbn [fst snd] in *.
    destruct Hout as [(response & chat & ->)| ->].
    + destruct (render_reply_spec response chat s2) as (t & E & Ht).
      cbv [unpack ret fst snd]. rewrite E. subst s2.
      eexists. split.
      * cbn [advance calls messages chat_session google_api_key with_user_message
             session_after]. rewrite ?Hcs, <- app_assoc. reflexivity.
      * rewrite !requests_app, Ht. simpl. now rewrite !app_nil_r.
    + cbv [unpack ret fst snd render_reply bind emit]. subst s2.
      eexists. split.
      * cbn [advance calls messages chat_session google_api_key with_user_message
             session_after]. rewrite ?Hcs, <- app_assoc. reflexivity.
      * rewrite !requests_app. simpl. now rewrite !app_nil_r.
  - destruct (generate_response provider prompt None
                (with_user_message prompt s)) as [[o s2] t2].
    unfold outcome, final, trace in *. cbn [fst snd] in *.
    destruct Hout as [(response & chat & ->)| ->].
    + destruct (render_reply_spec response chat
                  {| calls := calls s2; messages := messages s2;
                     chat_session := Some chat;
                     google_api_key := google_api_key s2 |}) as (t & E & Ht).
      cbv [unpack ret fst snd set_chat_session bind]. rewrite E. subst s2.
      eexists. split.
      * cbn [advance calls messages chat_session google_api_key with_user_message
             session_after]. rewrite ?Hcs, <- app_assoc. reflexivity.
      * rewrite !requests_app, Ht. simpl. now rewrite !app_nil_r.
    + cbv [unpack ret fst snd render_reply bind emit]. subst s2.
      eexists. split.
      * cbn [advance calls messages chat_session google_api_key with_user_message
             session_after]. rewrite ?Hcs, <- app_assoc. reflexivity.
      * rewrite !requests_app. simpl. now rewrite !app_nil_r.
Qed.

(** Without a usable key the script stops before line 165. *)
Lemma main_not_ready inp s :
  outcome (setup_google_api inp s) = Val false ->
  main provider inp s
  = (Halted, final (setup_google_api inp s),
     (header ++ trace (setup_google_api inp s) ++ [Stop])%list).
Proof.
  intros H. unfold main. cbv [bind emit].
  destruct (setup_google_api inp s) as [[o sa] ta].
  unfold outcome, final, trace in *. cbn [fst snd] in *. subst o.
  cbv [negb st_stop]. reflexivity.
Qed.

(** With a key the script redraws the conversation, greets if it is
    empty, and handles the prompt if one was submitted. *)
Lemma main_ready inp s :
  outcome (setup_google_api inp s) = Val true ->
  exists t0,
    requests t0 = [] /\
    main provider inp s
    = let '(o, s', t) :=
          match submitted inp with
          | Some prompt => handle_prompt provider prompt
          | None => ret tt
          end (ready_state inp s) in
      (o, s', (t0 ++ t)%list).
Proof.
  intros H.
  destruct (setup_google_api_frame inp s) as (_ & Hc & Hm & Hs & Hr).
  unfold main, ready_state, submitted. cbv [bind emit].
  destruct (setup_google_api inp s) as [[o sa] ta].
  unfold outcome, final, trace in *. cbn [fst snd] in *. subst o.
  destruct sa as [c m cs k]. cbn [calls messages chat_session google_api_key] in *.
  subst c m cs.
  cbv [negb ret get]. cbn [messages].
  destruct (for_each_display (messages s)
              {| calls := calls s; messages := messages s;
                 chat_session := chat_session s; google_api_key := k |})
    as (td & Etd & Htd).
  rewrite Etd. clear Etd.
  set (turn := match chat_input inp with
               | Some prompt =>
                   if PyStr.truthy prompt
                   then handle_prompt provider prompt else fun s0 => (Val tt, s0, [])
               | None => fun s0 => (Val tt, s0, [])
               end).
  assert (Hturn : match
                    match chat_input inp with
                    | Some prompt => if PyStr.truthy prompt then Some prompt else None
                    | None => None
                    end
                  with
                  | Some prompt => handle_prompt provider prompt
                  | None => fun s0 => (Val tt, s0, [])
                  end = turn).
  { subst turn. destruct (chat_input inp) as [p|]; [|reflexivity].
    now destruct (PyStr.truthy p). }
  rewrite Hturn. clear Hturn.
  destruct (messages s) as [|m0 ms] eqn:Hms.
  - cbv [append_message]. cbn [greeted messages calls chat_session google_api_key app].
    destruct (turn _) as [[o s'] t].
    exists (header ++ ta ++ td ++ [ChatMessage "assistant"; Markdown greeting])%list.
    split; [now rewrite !requests_app, Hr, Htd|].
    unfold header. cbn [app]. now rewrite <- !app_assoc.
  - cbn [greeted].
    destruct (turn _) as [[o s'] t].
    exists (header ++ ta ++ td)%list.
    split; [now rewrite !requests_app, Hr, Htd|].
    unfold header. cbn [app]. now rewrite <- !app_assoc, ?app_nil_r.
Qed.

End OrchestratorFacts.

(** A cap that is not negative lets the loop body run at least once. *)
Lemma first_request provider prompt conversation_history max_retries retry_delay s :
  0 <= max_retries ->
  requests (trace (generate_response_with_retry provider prompt
                     conversation_history max_retries retry_delay s)) <> [].
Proof.
  intros Hm. unfold generate_response_with_retry. rewrite retry_loop_step.
  replace (0 <=? max_retries) with true by (symmetry; now apply Z.leb_le).
  destruct (attempt_inv provider prompt conversation_history max_retries
              0 retry_delay s)
    as [(response & chat & _ & ->)
       |[(e & _ & _ & _ & _ & ->)
        |[(e & _ & _ & _ & _ & x & t & -> & _)
         |[(e & _ & _ & _ & ->)|(e & _ & _ & ->)]]]];
    try discriminate.
  destruct (retry_loop provider _ prompt conversation_history max_retries
              (0 + 1) (retry_delay * 2) (advance 1 s)) as [[o s2] t2].
  discriminate.
Qed.

(** The fuel given by [generate_response_with_retry] is enough whatever the
    arguments and the provider: the function always returns or raises. *)
Lemma generate_response_with_retry_total provider prompt conversation_history
    max_retries retry_delay s :
  outcome (generate_response_with_retry provider prompt conversation_history
             max_retries retry_delay s) <> Exhausted.
Proof.
  unfold generate_response_with_retry. apply retry_loop_fuel. lia.
Qed.

(** Outside the intended range of the parameters: a negative cap skips the
    loop, so the function falls off its end and returns a bare [None]
    without any request; a negative delay makes [time.sleep] raise at the
    first retry. *)
Lemma negative_cap provider prompt conversation_history max_retries retry_delay s :
  max_retries < 0 ->
  generate_response_with_retry provider prompt conversation_history
    max_retries retry_delay s = (Val BareNone, s, []).
Proof.
  intros H. unfold generate_response_with_retry. rewrite retry_loop_step.
  apply Z.leb_gt in H. now rewrite H.
Qed.

Example negative_delay :
  outcome (generate_response_with_retry always_overloaded "hi" None 3 (-2) state0)
  = Raised "sleep length must be non-negative".
Proof. reflexivity. Qed.


(** A run of the script that has a key and a prompt: one turn is added to
    the conversation and the requests are those of the completion call. *)
Lemma main_turn provider inp s prompt :
  outcome (setup_google_api inp s) = Val true ->
  submitted inp = Some prompt ->
  let g := generate_response provider prompt
             (history_argument prompt (ready_state inp s))
             (with_user_message prompt (ready_state inp s)) in
  let r := main provider inp s in
  outcome r = Val tt /\
  messages (final r)
  = (greeted (messages s)
     ++ [user_message prompt; assistant_message (reply_text (outcome g))])%list /\
  chat_session (final r) = session_after (chat_session s) (outcome g) /\
  calls (final r) = calls (final g) /\
  requests (trace r) = requests (trace g).
Proof.
  intros Hready Hsub. cbv zeta.
  destruct (main_ready provider inp s Hready) as (t0 & Ht0 & ->).
  rewrite Hsub.
  destruct (handle_prompt_run provider prompt (ready_state inp s)) as (t & -> & Ht).
  unfold outcome, final, trace. cbn [fst snd messages chat_session calls].
  rewrite requests_app, Ht0, Ht. now repeat split.
Qed.

(** * The properties of the specification *)

Lemma overload_error_matches : is_overloaded overload_error = true.
Proof. reflexivity. Qed.

Lemma always_overloaded_at n : OverloadedAt always_overloaded n.
Proof. intros r. exists overload_error. split; reflexivity. Qed.

Lemma flaky_overloaded_at k n : (n < k)%nat -> OverloadedAt (flaky k) n.
Proof.
  intros H r. exists overload_error. unfold flaky.
  apply Nat.ltb_lt in H. rewrite H. split; reflexivity.
Qed.

Lemma flaky_answers_at k n : (k <= n)%nat -> AnswersAt (flaky k) n.
Proof.
  intros H r. exists sample_stream, (Chat n). unfold flaky.
  apply Nat.ltb_ge in H. now rewrite H.
Qed.

(** Claim C1 as stated fails for a delay [time.sleep] does not accept:
    with [max_retries = 3], [retry_delay = 10000000000] and a provider that
    is always overloaded, the first failure is followed by the warning and
    then by the [OverflowError] of [time.sleep], which leaves the function:
    one attempt is made, not four, and no terminal failure is returned.
    The same happens with a negative delay and with a cap too long to be
    written into the warning, and a negative cap makes no attempt at all. *)
Lemma long_delay_escapes :
  let r := generate_response_with_retry always_overloaded "hi" None
             3 10000000000 state0 in
  (forall i, OverloadedAt always_overloaded (calls state0 + i)) /\
  outcome r = Raised "timestamp too large to convert to C _PyTime_t" /\
  attempts (trace r) = 1 /\
  sleeps (trace r) = [] /\
  ~ (outcome r = Val NoReply /\ attempts (trace r) = 3 + 1) /\
  attempts (trace (generate_response_with_retry always_overloaded "hi" None
                     3 (-2) state0)) = 1 /\
  attempts (trace (generate_response_with_retry always_overloaded "hi" None
                     int_str_limit 0 state0)) = 1 /\
  attempts (trace (generate_response_with_retry always_overloaded "hi" None
                     (-2) 2 state0)) = 0.
Proof.
  cbv zeta. split; [intros i; apply always_overloaded_at|].
  assert (E : generate_response_with_retry always_overloaded "hi" None
                3 10000000000 state0
              = (Raised "timestamp too large to convert to C _PyTime_t",
                 advance 1 state0,
                 [Send (build_request "hi" None);
                  Warning (retry_warning 10000000000 1 3)]))
    by (vm_compute; reflexivity).
  rewrite E. unfold outcome, trace, attempts. cbn [fst snd requests sleeps length].
  split; [reflexivity|]. split; [reflexivity|]. split; [reflexivity|].
  split; [intros [H _]; discriminate H|].
  split; [vm_compute; reflexivity|].
  split; [|vm_compute; reflexivity].
  unfold generate_response_with_retry. rewrite retry_loop_step.
  replace (0 <=? int_str_limit) with true by (vm_compute; reflexivity).
  destruct (attempt_escape always_overloaded "hi" None int_str_limit 0 0 state0
              overload_error eq_refl eq_refl)
    as (x & t & -> & Ht); [vm_compute; discriminate | vm_compute; reflexivity |].
  destruct Ht as [-> | ->]; reflexivity.
Qed.

(** Claim C1, amended.  For parameters in range (a cap that is not negative
    and has at most 4300 digits, a delay that is not negative and whose last
    doubling [retry_delay * 2 ^ (max_retries - 1)] is at most [sleep_safe]):
    when every attempt fails with the overload signature, the client makes
    exactly [max_retries + 1] attempts and then returns the terminal failure
    [(None, None)]; and when the first answer comes after [k] such failures,
    the number of retries performed is [min k max_retries]. *)
Theorem retry_budget provider prompt conversation_history max_retries retry_delay s :
  InRange max_retries retry_delay ->
  let r := generate_response_with_retry provider prompt conversation_history
             max_retries retry_delay s in
  ((forall i, OverloadedAt provider (calls s + i)) ->
   outcome r = Val NoReply /\ attempts (trace r) = max_retries + 1)
  /\
  (forall k,
     (forall i, (i < k)%nat -> OverloadedAt provider (calls s + i)) ->
     AnswersAt provider (calls s + k) ->
     retries_performed (trace r) = Z.min (Z.of_nat k) max_retries).
Proof.
  intros Hin. pose proof (in_range_granted _ _ Hin) as Hg.
  assert (Hm : 0 <= max_retries) by (destruct Hin as (? & _); lia).
  cbv zeta. split.
  - intros Hov.
    destruct (run_all_overloaded provider prompt conversation_history
                max_retries retry_delay s Hg (fun i _ => Hov i))
      as (Ho & _ & Hreq & _ & _).
    split; [exact Ho|].
    unfold attempts. rewrite Hreq, repeat_length. lia.
  - intros k Hov Hans. unfold retries_performed.
    destruct (Z_le_gt_dec (Z.of_nat k) max_retries) as [Hk|Hk].
    + destruct (Hans (build_request prompt conversation_history))
        as (response & chat & Hok).
      destruct (run_success_after provider prompt conversation_history
                  max_retries k retry_delay s response chat Hg Hk Hov Hok)
        as (_ & _ & _ & Hsl & _).
      rewrite Hsl, doubling_length. lia.
    + destruct (run_all_overloaded provider prompt conversation_history
                  max_retries retry_delay s Hg) as (_ & _ & _ & Hsl & _).
      { intros i Hi. apply Hov. lia. }
      rewrite Hsl, doubling_length. lia.
Qed.

Lemma retry_budget_witness :
  InRange 3 2 /\
  (outcome (generate_response_with_retry always_overloaded "hi" None 3 2 state0)
   = Val NoReply /\
   attempts (trace (generate_response_with_retry always_overloaded "hi" None 3 2 state0))
   = 3 + 1) /\
  retries_performed
    (trace (generate_response_with_retry (flaky 2) "hi" None 3 2 state0))
  = Z.min (Z.of_nat 2) 3.
Proof.
  assert (Hin : InRange 3 2).
  { unfold InRange. repeat split; try lia; vm_compute; try reflexivity; discriminate. }
  split; [exact Hin|]. split.
  - apply (proj1 (retry_budget always_overloaded "hi" None 3 2 state0 Hin)).
    intros i. apply always_overloaded_at.
  - apply (proj2 (retry_budget (flaky 2) "hi" None 3 2 state0 Hin) 2%nat).
    + intros i Hi. now apply flaky_overloaded_at.
    + now apply flaky_answers_at.
Defined.

(** Claim C3.  With [max_retries = 3] and [retry_delay = 2], a run in which
    every attempt fails with the overload signature sleeps for exactly
    2, 4 and 8 between its attempts, each delay twice the one before. *)
Theorem backoff_delays provider prompt conversation_history s :
  (forall i, OverloadedAt provider (calls s + i)) ->
  let r := generate_response_with_retry provider prompt conversation_history 3 2 s in
  sleeps (trace r) = [2; 4; 8] /\ Doubles (sleeps (trace r)) /\
  attempts (trace r) = 4.
Proof.
  intros Hov. cbv zeta.
  destruct (run_all_overloaded provider prompt conversation_history 3 2 s
              defaults_granted (fun i _ => Hov i))
    as (_ & _ & Hreq & Hsl & _).
  rewrite Hsl. unfold attempts. rewrite Hreq.
  split; [reflexivity|]. split; [apply doubling_Doubles | reflexivity].
Qed.

Lemma backoff_delays_witness :
  sleeps (trace (generate_response_with_retry always_overloaded
                   "I have a fever" None 3 2 state0)) = [2; 4; 8].
Proof.
  exact (proj1 (backoff_delays always_overloaded "I have a fever" None state0
                  (fun i => always_overloaded_at _))).
Defined.

(** Claim C6.  When the history is absent or empty, every request the
    client sends carries the system instruction, a blank line and
    [User: ] in front of the prompt as one text, and an empty history. *)
Theorem first_turn_prefix provider prompt conversation_history max_retries retry_delay s :
  conversation_history = None \/ conversation_history = Some [] ->
  let r := generate_response_with_retry provider prompt conversation_history
             max_retries retry_delay s in
  Forall (fun q => req_message q = system_instruction ++ nl ++ nl ++ "User: " ++ prompt
                   /\ req_history q = [])
         (requests (trace r))
  /\ (0 <= max_retries -> requests (trace r) <> []).
Proof.
  intros Hh. cbv zeta. split.
  - destruct (retry_loop_frame provider prompt conversation_history max_retries
                (S (Z.to_nat (max_retries + 1))) 0 retry_delay s) as [_ Hreq].
    unfold generate_response_with_retry.
    eapply Forall_impl; [|exact Hreq].
    intros q <-. destruct Hh as [-> | ->]; split; reflexivity.
  - apply first_request.
Qed.

Lemma first_turn_prefix_witness :
  requests (trace (generate_response_with_retry (answering sample_stream)
                     "I have a fever" None 3 2 state0))
  = [ {| model_name := "gemini-2.0-flash";
         req_generation_config := generation_config;
         req_safety_settings := safety_settings;
         req_history := [];
         req_message := system_instruction ++ nl ++ nl ++ "User: I have a fever" |} ]
  /\ Forall (fun q => req_message q
                      = system_instruction ++ nl ++ nl ++ "User: " ++ "I have a fever"
                      /\ req_history q = [])
       (requests (trace (generate_response_with_retry (answering sample_stream)
                           "I have a fever" None 3 2 state0))).
Proof.
  split; [reflexivity|].
  apply (first_turn_prefix (answering sample_stream) "I have a fever" None 3 2 state0).
  now left.
Defined.

(** Claim C10.  [generate_response] is [generate_response_with_retry] at
    [max_retries = 3] and [retry_delay = 2]: same value returned, same
    state, same trace. *)
Theorem generate_response_defaults provider prompt conversation_history s :
  generate_response provider prompt conversation_history s
  = generate_response_with_retry provider prompt conversation_history 3 2 s.
Proof. reflexivity. Qed.




(** Claim C4 as stated fails: when the stream breaks after the fragments
    [Possible ] and [condition], the message recorded for the assistant is
    the error text alone; the fragments received are not part of it. *)
Lemma partial_text_is_dropped :
  let r := main (answering broken_stream) (with_key (Some "I have a fever")) state0 in
  stream_failure broken_stream = Some "connection reset" /\
  received broken_stream = "Possible condition" /\
  outcome r = Val tt /\
  last (messages (final r)) (user_message "")
  = assistant_message "Error while streaming response: connection reset" /\
  ~ (exists marker,
       content (last (messages (final r)) (user_message ""))
       = received broken_stream ++ marker).
Proof.
  cbv zeta. repeat split.
  intros (marker & E). vm_compute in E. discriminate E.
Qed.

(** Claim C4, amended.  When the iteration over the response raises, the
    message recorded for the assistant is [Error while streaming response: ]
    followed by the text of the exception; the exception is caught and the
    run of the script ends normally with the turn appended. *)
Theorem stream_failure_recorded provider inp s prompt response chat e :
  outcome (setup_google_api inp s) = Val true ->
  submitted inp = Some prompt ->
  outcome (generate_response provider prompt
             (history_argument prompt (ready_state inp s))
             (with_user_message prompt (ready_state inp s)))
  = Val (Reply response chat) ->
  stream_failure response = Some e ->
  let r := main provider inp s in
  outcome r = Val tt /\
  messages (final r)
  = (greeted (messages s)
     ++ [user_message prompt;
         assistant_message ("Error while streaming response: " ++ e)])%list.
Proof.
  intros Hready Hsub Hg He. cbv zeta.
  destruct (main_turn provider inp s prompt Hready Hsub) as (Ho & Hm & _).
  split; [exact Ho|]. rewrite Hm, Hg. unfold reply_text. now rewrite He.
Qed.

Lemma stream_failure_recorded_witness :
  (outcome (setup_google_api (with_key (Some "I have a fever")) state0) = Val true /\
   submitted (with_key (Some "I have a fever")) = Some "I have a fever" /\
   stream_failure broken_stream = Some "connection reset") /\
  messages (final (main (answering broken_stream)
                     (with_key (Some "I have a fever")) state0))
  = [ assistant_message greeting; user_message "I have a fever";
      assistant_message "Error while streaming response: connection reset" ].
Proof.
  split; [repeat split|].
  apply (stream_failure_recorded (answering broken_stream)
           (with_key (Some "I have a fever")) state0 "I have a fever"
           broken_stream (Chat 0) "connection reset"
           eq_refl eq_refl eq_refl eq_refl).
Defined.

(** Claim C5.  With a chat session in the state, the history handed to the
    completion call is the conversation before the submitted message,
    message by message in the same order, [assistant] renamed to [model]
    and [user] kept; every request sent carries that history and the new
    prompt.  For the conversation [user: hi], [assistant: hello] and the
    prompt [I have a fever] the provider sees the turns user, model, user. *)
Theorem history_passed provider inp s prompt chat :
  outcome (setup_google_api inp s) = Val true ->
  submitted inp = Some prompt ->
  chat_session s = Some chat ->
  let r := main provider inp s in
  history_argument prompt (ready_state inp s)
  = Some (map to_gemini (greeted (messages s))) /\
  (forall m, turn_role (to_gemini m)
             = if (role m =? "assistant")%string then "model" else "user") /\
  (forall m, parts (to_gemini m) = [ {| text := content m |} ]) /\
  requests (trace r) <> [] /\
  Forall (fun q => req_history q = map to_gemini (greeted (messages s)) /\
                   req_message q = prompt)
         (requests (trace r)) /\
  (messages s = [user_message "hi"; assistant_message "hello"] ->
   prompt = "I have a fever" ->
   Forall (fun q => request_turns q
                    = [ {| turn_role := "user"; parts := [ {| text := "hi" |} ] |};
                        {| turn_role := "model"; parts := [ {| text := "hello" |} ] |};
                        {| turn_role := "user";
                           parts := [ {| text := "I have a fever" |} ] |} ])
          (requests (trace r))).
Proof.
  intros Hready Hsub Hcs. cbv zeta.
  assert (Hh : history_argument prompt (ready_state inp s)
               = Some (map to_gemini (greeted (messages s)))).
  { unfold history_argument, ready_state. cbn [chat_session messages].
    now rewrite Hcs, build_history_prior. }
  destruct (main_turn provider inp s prompt Hready Hsub) as (_ & _ & _ & _ & Hreq).
  destruct (generate_response_spec provider prompt
              (history_argument prompt (ready_state inp s))
              (with_user_message prompt (ready_state inp s)))
    as (_ & _ & Hall & Hne).
  rewrite <- Hreq in Hall, Hne. rewrite Hh in Hall.
  assert (Hq : Forall (fun q => req_history q = map to_gemini (greeted (messages s)) /\
                                req_message q = prompt) (requests (trace (main provider inp s)))).
  { eapply Forall_impl; [|exact Hall]. intros q <-.
    unfold build_request.
    destruct (messages s) as [|m0 ms]; now split. }
  repeat split; try assumption.
  intros Hm Hp. eapply Forall_impl; [|exact Hq].
  intros q [Hqh Hqm]. unfold request_turns. rewrite Hqh, Hqm, Hm, Hp. reflexivity.
Qed.

Lemma history_passed_witness :
  (outcome (setup_google_api (with_key (Some "I have a fever")) returning_patient)
   = Val true /\
   submitted (with_key (Some "I have a fever")) = Some "I have a fever" /\
   chat_session returning_patient = Some (Chat 0)) /\
  map (fun q => map turn_role (request_turns q))
      (requests (trace (main (answering sample_stream)
                          (with_key (Some "I have a fever")) returning_patient)))
  = [ ["user"; "model"; "user"] ] /\
  Forall (fun q => req_history q = map to_gemini (greeted (messages returning_patient)) /\
                   req_message q = "I have a fever")
    (requests (trace (main (answering sample_stream)
                        (with_key (Some "I have a fever")) returning_patient))).
Proof.
  split; [repeat split|]. split; [reflexivity|].
  apply (history_passed (answering sample_stream) (with_key (Some "I have a fever"))
           returning_patient "I have a fever" (Chat 0) eq_refl eq_refl eq_refl).
Defined.

(** Claim C7.  With no key in the environment, none cached in the session
    state and none typed into the sidebar, a run of the script sends no
    request whatever the user submitted: it shows the sidebar warning and
    is ended by [st.stop()], with the state untouched and no exception. *)
Theorem no_key_no_request provider inp s :
  key_truthy (env_key inp) = false ->
  google_api_key s = None ->
  key_input inp = "" ->
  let r := main provider inp s in
  outcome r = Halted /\
  final r = s /\
  requests (trace r) = [] /\
  In (SidebarWarning "Please enter your Google AI API key to continue") (trace r).
Proof.
  intros Henv Hc Hk. cbv zeta.
  pose proof (setup_google_api_no_key inp s Henv Hc Hk) as E.
  rewrite main_not_ready by now rewrite E.
  rewrite E. unfold outcome, final, trace, header. cbn [fst snd app requests].
  repeat split. simpl. tauto.
Qed.

Lemma no_key_no_request_witness :
  (key_truthy (env_key (no_key (Some "I have a fever"))) = false /\
   google_api_key state0 = None /\
   key_input (no_key (Some "I have a fever")) = "") /\
  requests (trace (main (answering sample_stream)
                     (no_key (Some "I have a fever")) state0)) = [].
Proof.
  split; [repeat split|].
  apply (no_key_no_request (answering sample_stream)
           (no_key (Some "I have a fever")) state0 eq_refl eq_refl eq_refl).
Defined.

(** Claim C8.  A turn (lines 179-226) always completes and appends exactly
    two messages, the user's and then the assistant's, after the existing
    ones; it never ends with the user's message alone.  A run of the script
    neither raises nor runs out of fuel, and leaves the messages it found
    in place, in order, adding to them only at the end. *)
Theorem conversation_grows provider inp s prompt :
  let turn := handle_prompt provider prompt s in
  let r := main provider inp s in
  (outcome turn = Val tt /\
   (exists reply,
      messages (final turn)
      = (messages s ++ [user_message prompt; assistant_message reply])%list) /\
   length (messages (final turn)) = (length (messages s) + 2)%nat)
  /\ (outcome r = Val tt \/ outcome r = Halted)
  /\ (exists added, messages (final r) = (messages s ++ added)%list)
  /\ (length (messages s) <= length (messages (final r)))%nat
  /\ (outcome (setup_google_api inp s) = Val true ->
      submitted inp = Some prompt ->
      exists reply,
        messages (final r)
        = (greeted (messages s)
           ++ [user_message prompt; assistant_message reply])%list).
Proof.
  cbv zeta.
  assert (Hturn : outcome (handle_prompt provider prompt s) = Val tt /\
                  exists reply,
                    messages (final (handle_prompt provider prompt s))
                    = (messages s ++ [user_message prompt; assistant_message reply])%list).
  { destruct (handle_prompt_run provider prompt s) as (t & -> & _).
    split; [reflexivity|]. eexists. reflexivity. }
  assert (Hgreeted : exists pre, greeted (messages s) = (messages s ++ pre)%list).
  { destruct (messages s) as [|m ms]; [now eexists|].
    exists []. simpl. now rewrite app_nil_r. }
  assert (Hmain : (outcome (main provider inp s) = Val tt \/
                   outcome (main provider inp s) = Halted) /\
                  exists added,
                    messages (final (main provider inp s)) = (messages s ++ added)%list).
  { destruct (setup_google_api_frame inp s) as ([Hr|Hr] & _ & Hm & _).
    - destruct (submitted inp) as [p|] eqn:Hsub.
      + destruct (main_turn provider inp s p Hr Hsub) as (Ho & Hmsg & _).
        split; [now left|]. rewrite Hmsg.
        destruct Hgreeted as (pre & ->). rewrite <- app_assoc. now eexists.
      + destruct (main_ready provider inp s Hr) as (t0 & _ & ->).
        rewrite Hsub. unfold ret, outcome, final; cbn [fst snd ready_state messages].
        split; [now left | exact Hgreeted].
    - rewrite main_not_ready by assumption.
      unfold outcome, final in *; cbn [fst snd] in *.
      split; [now right|]. exists []. now rewrite Hm, app_nil_r. }
  destruct Hturn as (Ho & reply & Hreply).
  destruct Hmain as (Hom & added & Hadded).
  split; [split; [exact Ho|split; [now exists reply|]]|].
  { rewrite Hreply, length_app. reflexivity. }
  split; [exact Hom|]. split; [now exists added|].
  split; [rewrite Hadded, length_app; lia|].
  intros Hr Hsub.
  destruct (main_turn provider inp s prompt Hr Hsub) as (_ & Hmsg & _).
  eexists. exact Hmsg.
Qed.

Lemma conversation_grows_witness :
  outcome (setup_google_api (with_key (Some "I have a fever")) returning_patient)
  = Val true /\
  submitted (with_key (Some "I have a fever")) = Some "I have a fever" /\
  length (messages (final (handle_prompt (answering sample_stream)
                             "I have a fever" returning_patient)))
  = (length (messages returning_patient) + 2)%nat /\
  exists reply,
    messages (final (main (answering sample_stream)
                       (with_key (Some "I have a fever")) returning_patient))
    = (greeted (messages returning_patient)
       ++ [user_message "I have a fever"; assistant_message reply])%list.
Proof.
  split; [reflexivity|]. split; [reflexivity|]. split.
  - apply (conversation_grows (answering sample_stream)
             (with_key (Some "I have a fever")) returning_patient "I have a fever").
  - apply (conversation_grows (answering sample_stream)
             (with_key (Some "I have a fever")) returning_patient "I have a fever");
      reflexivity.
Defined.

(** Claim C9.  When the completion client returns [(None, None)], the
    message appended for the assistant is the fixed apology, and the run of
    the script ends normally, ready for the next input. *)
Theorem apology_on_failure provider inp s prompt :
  outcome (setup_google_api inp s) = Val true ->
  submitted inp = Some prompt ->
  outcome (generate_response provider prompt
             (history_argument prompt (ready_state inp s))
             (with_user_message prompt (ready_state inp s)))
  = Val NoReply ->
  let r := main provider inp s in
  outcome r = Val tt /\
  messages (final r)
  = (greeted (messages s)
     ++ [user_message prompt;
         assistant_message
           "I'm sorry, I couldn't generate a response. Please try again."])%list.
Proof.
  intros Hready Hsub Hg. cbv zeta.
  destruct (main_turn provider inp s prompt Hready Hsub) as (Ho & Hm & _).
  split; [exact Ho|]. now rewrite Hm, Hg.
Qed.

Lemma apology_on_failure_witness :
  (outcome (setup_google_api (with_key (Some "I have a fever")) state0) = Val true /\
   submitted (with_key (Some "I have a fever")) = Some "I have a fever" /\
   outcome (generate_response (always_failing "401 bad key") "I have a fever"
              (history_argument "I have a fever"
                 (ready_state (with_key (Some "I have a fever")) state0))
              (with_user_message "I have a fever"
                 (ready_state (with_key (Some "I have a fever")) state0)))
   = Val NoReply) /\
  messages (final (main (always_failing "401 bad key")
                     (with_key (Some "I have a fever")) state0))
  = [ assistant_message greeting; user_message "I have a fever";
      assistant_message apology ].
Proof.
  split; [repeat split|].
  apply (apology_on_failure (always_failing "401 bad key")
           (with_key (Some "I have a fever")) state0 "I have a fever"
           eq_refl eq_refl eq_refl).
Defined.

(** The state a typed key leaves behind, and the result when it is
    rejected. *)
Lemma typed_key_cached_state inp s :
  key_truthy (env_key inp) = false ->
  google_api_key s = None ->
  PyStr.truthy (key_input inp) = true ->
  google_api_key (final (setup_google_api inp s)) = Some (key_input inp) /\
  (forall e, configure_error inp (key_input inp) = Some e ->
             outcome (setup_google_api inp s) = Val false).
Proof.
  intros Henv Hc Hk. unfold setup_google_api, genai_configure.
  cbv [bind ret negb get emit try_except set_google_api_key raise].
  rewrite Henv, Hc, Hk. cbv iota beta. rewrite Hk. cbv iota.
  destruct (configure_error inp (key_input inp)) as [e|];
    unfold outcome, final; cbn [fst snd google_api_key]; split;
    try reflexivity; try discriminate.
Qed.

(** * Further properties of the code *)

(** ** The key set-up *)

(** A key in the environment is the one configured: the sidebar input is
    not drawn, a cached key is neither read nor replaced, and the result is
    [True] unless [genai.configure] raises, in which case the error is
    shown in the sidebar. *)
Theorem env_key_has_priority inp s k :
  env_key inp = Some k ->
  PyStr.truthy k = true ->
  setup_google_api inp s
  = match configure_error inp k with
    | None => (Val true, s, [Configure k])
    | Some e => (Val false, s, [SidebarError ("Error initializing Google AI: " ++ e)])
    end.
Proof.
  intros He Hk. unfold setup_google_api, genai_configure, key_truthy.
  rewrite He, Hk. cbv [negb bind ret try_except]. rewrite Hk.
  now destruct (configure_error inp k).
Qed.

Lemma env_key_has_priority_witness :
  (env_key (with_key None) = Some "secret" /\ PyStr.truthy "secret" = true) /\
  setup_google_api (with_key None) returning_patient
  = (Val true, returning_patient, [Configure "secret"]).
Proof.
  split; [now split|].
  apply (env_key_has_priority (with_key None) returning_patient "secret"
           eq_refl eq_refl).
Defined.

(** Without a key in the environment or in the session state, a key typed
    into the sidebar is stored in the session state before it is tried, so
    it stays there whether [genai.configure] accepts it or raises. *)
Theorem typed_key_is_cached inp s :
  key_truthy (env_key inp) = false ->
  google_api_key s = None ->
  PyStr.truthy (key_input inp) = true ->
  let r := setup_google_api inp s in
  google_api_key (final r) = Some (key_input inp) /\
  key_prompts (trace r) = 1%nat /\
  (configure_error inp (key_input inp) = None ->
   outcome r = Val true /\ configured (trace r) = [key_input inp]) /\
  (forall e, configure_error inp (key_input inp) = Some e ->
   outcome r = Val false /\ configured (trace r) = [] /\
   In (SidebarError ("Error initializing Google AI: " ++ e)) (trace r)).
Proof.
  intros Henv Hc Hk. cbv zeta. unfold setup_google_api, genai_configure.
  cbv [bind ret negb get emit try_except set_google_api_key raise].
  rewrite Henv, Hc, Hk. cbv iota beta. rewrite Hk. cbv iota.
  destruct (configure_error inp (key_input inp)) as [e|];
    unfold outcome, final, trace; cbn [fst snd google_api_key app key_prompts configured];
    repeat split; try discriminate.
  match goal with H : Some _ = Some _ |- _ => injection H as <- end.
  simpl. tauto.
Qed.

Lemma typed_key_is_cached_witness :
  (key_truthy (env_key (typing "k-123" (reject_all "API key not valid") None)) = false /\
   google_api_key state0 = None /\
   PyStr.truthy (key_input (typing "k-123" (reject_all "API key not valid") None)) = true) /\
  google_api_key
    (final (setup_google_api (typing "k-123" (reject_all "API key not valid") None) state0))
  = Some "k-123".
Proof.
  split; [repeat split|].
  apply (typed_key_is_cached (typing "k-123" (reject_all "API key not valid") None)
           state0 eq_refl eq_refl eq_refl).
Defined.

(** With no key in the environment, a key held in the session state is the
    one used: the sidebar input is not drawn, what the user may have typed
    is ignored and the state is left as it is. *)
Theorem cached_key_reused inp s k :
  key_truthy (env_key inp) = false ->
  google_api_key s = Some k ->
  let r := setup_google_api inp s in
  final r = s /\
  key_prompts (trace r) = 0%nat /\
  (PyStr.truthy k = true -> configure_error inp k = None ->
   outcome r = Val true /\ configured (trace r) = [k]) /\
  (outcome r = Val true -> configured (trace r) = [k]).
Proof.
  intros Henv Hc. cbv zeta. unfold setup_google_api, genai_configure.
  cbv [bind ret negb get emit try_except raise]. rewrite Henv, Hc. cbv iota beta.
  destruct (PyStr.truthy k) eqn:Hk; cbv iota.
  - destruct (configure_error inp k) as [e|];
      unfold outcome, final, trace; cbn [fst snd app key_prompts configured];
      repeat split; try discriminate; congruence.
  - unfold outcome, final, trace; cbn [fst snd app key_prompts configured].
    repeat split; discriminate.
Qed.

Lemma cached_key_reused_witness :
  (key_truthy (env_key (typing "other" accept_all None)) = false /\
   google_api_key (final (setup_google_api (typing "k-123" accept_all None) state0))
   = Some "k-123") /\
  configured
    (trace (setup_google_api (typing "other" accept_all None)
              (final (setup_google_api (typing "k-123" accept_all None) state0))))
  = ["k-123"].
Proof.
  split; [now split|].
  apply (cached_key_reused (typing "other" accept_all None)
           (final (setup_google_api (typing "k-123" accept_all None) state0))
           "k-123" eq_refl eq_refl); reflexivity.
Defined.

(** A typed key that [genai.configure] rejects is cached all the same, and
    from then on the sidebar input is never drawn again: as long as the
    environment has no key and the cached one keeps being rejected, every
    later set-up fails without asking, whatever is typed. *)
Theorem rejected_key_sticks inp1 inp2 s e1 e2 :
  key_truthy (env_key inp1) = false ->
  google_api_key s = None ->
  PyStr.truthy (key_input inp1) = true ->
  configure_error inp1 (key_input inp1) = Some e1 ->
  key_truthy (env_key inp2) = false ->
  configure_error inp2 (key_input inp1) = Some e2 ->
  let first := setup_google_api inp1 s in
  let second := setup_google_api inp2 (final first) in
  outcome first = Val false /\
  outcome second = Val false /\
  key_prompts (trace second) = 0%nat /\
  configured (trace second) = [] /\
  google_api_key (final second) = Some (key_input inp1).
Proof.
  intros Henv1 Hc Hk He1 Henv2 He2. cbv zeta.
  destruct (typed_key_cached_state inp1 s Henv1 Hc Hk) as (Hkey & Hout).
  split; [now apply Hout with (e := e1)|].
  set (s1 := final (setup_google_api inp1 s)) in *.
  unfold setup_google_api, genai_configure.
  cbv [bind ret negb get emit try_except raise]. rewrite Henv2, Hkey. cbv iota beta.
  rewrite Hk. cbv iota. rewrite He2.
  unfold outcome, final, trace. cbn [fst snd app key_prompts configured].
  now repeat split.
Qed.

Lemma rejected_key_sticks_witness :
  (key_truthy (env_key (typing "k-123" (reject_all "API key not valid") None)) = false /\
   google_api_key state0 = None /\
   PyStr.truthy (key_input (typing "k-123" (reject_all "API key not valid") None)) = true /\
   configure_error (typing "k-123" (reject_all "API key not valid") None)
     (key_input (typing "k-123" (reject_all "API key not valid") None))
   = Some "API key not valid" /\
   key_truthy (env_key (typing "k-456" (reject_all "API key not valid") None)) = false /\
   configure_error (typing "k-456" (reject_all "API key not valid") None)
     (key_input (typing "k-123" (reject_all "API key not valid") None))
   = Some "API key not valid") /\
  key_prompts
    (trace (setup_google_api (typing "k-456" (reject_all "API key not valid") None)
              (final (setup_google_api
                        (typing "k-123" (reject_all "API key not valid") None) state0))))
  = 0%nat.
Proof.
  split; [repeat split|].
  apply (rejected_key_sticks
           (typing "k-123" (reject_all "API key not valid") None)
           (typing "k-456" (reject_all "API key not valid") None)
           state0 "API key not valid" "API key not valid"
           eq_refl eq_refl eq_refl eq_refl eq_refl eq_refl).
Defined.

(** ** The completion client *)

Lemma doubling_total (k : nat) (d : Z) :
  fold_right Z.add 0 (doubling k d) = d * (2 ^ Z.of_nat k - 1).
Proof.
  revert d; induction k as [|k IH]; intros d.
  - simpl. ring.
  - change (doubling (S k) d) with (d :: doubling k (d * 2)).
    cbn [fold_right]. rewrite IH, Nat2Z.inj_succ, Z.pow_succ_r by lia. ring.
Qed.

(** For parameters in range and any provider, the trace of a call is some
    number [k <= max_retries] of rounds, each a request, one warning and one
    wait, the waits doubling from [retry_delay], then one last request and
    at most one [st.error]: between one and [max_retries + 1] attempts, the
    very same request each time, and a warning and a wait between any two
    consecutive attempts. *)
Theorem attempts_bounded provider prompt conversation_history max_retries retry_delay s :
  InRange max_retries retry_delay ->
  let r := generate_response_with_retry provider prompt conversation_history
             max_retries retry_delay s in
  let q := build_request prompt conversation_history in
  exists k ending,
    Z.of_nat k <= max_retries /\
    trace r = (retry_rounds q max_retries k 0 retry_delay ++ Send q :: ending)%list /\
    (ending = [] \/ exists e, ending = [Error e]) /\
    requests (trace r) = repeat q (S k) /\
    sleeps (trace r) = doubling k retry_delay /\
    length (warnings (trace r)) = k /\
    1 <= attempts (trace r) <= max_retries + 1 /\
    attempts (trace r) = retries_performed (trace r) + 1.
Proof.
  intros Hin. cbv zeta. unfold generate_response_with_retry.
  pose proof (in_range_granted _ _ Hin) as Hg.
  destruct (retry_loop_granted provider prompt conversation_history max_retries
              (S (Z.to_nat (max_retries + 1))) 0 retry_delay s Hg ltac:(lia))
    as (k & ending & Hk & Htr & Hend).
  exists k, ending. rewrite Z.sub_0_r in Hk.
  assert (He : ending = [] \/ exists e, ending = [Error e]).
  { destruct Hend as [(_ & _ & _ & ->)|[_ [-> | (e & _ & ->)]]];
      [now left | right; now eexists | right; now eexists]. }
  assert (Hq : requests ending = [] /\ sleeps ending = [] /\ warnings ending = []).
  { destruct He as [-> | (e & ->)]; now repeat split. }
  destruct Hq as (Hq1 & Hq2 & Hq3).
  split; [exact Hk|]. split; [exact Htr|]. split; [exact He|].
  unfold attempts, retries_performed. rewrite Htr.
  rewrite requests_app, sleeps_app, warnings_app, requests_retry_rounds,
    sleeps_retry_rounds.
  cbn [requests sleeps warnings]. rewrite Hq1, Hq2, Hq3, !app_nil_r.
  rewrite warnings_retry_rounds, doubling_length.
  replace (repeat (build_request prompt conversation_history) k
           ++ [build_request prompt conversation_history])%list
    with (repeat (build_request prompt conversation_history) (S k))
    by (rewrite <- repeat_cons; reflexivity).
  rewrite repeat_length. repeat split; lia.
Qed.

Lemma attempts_bounded_witness :
  InRange 3 2 /\
  exists k ending,
    Z.of_nat k <= 3 /\
    trace (generate_response_with_retry (flaky 2) "hi" None 3 2 state0)
    = (retry_rounds (build_request "hi" None) 3 k 0 2
       ++ Send (build_request "hi" None) :: ending)%list.
Proof.
  assert (Hin : InRange 3 2).
  { unfold InRange. repeat split; try lia; vm_compute; try reflexivity; discriminate. }
  split; [exact Hin|].
  destruct (attempts_bounded (flaky 2) "hi" None 3 2 state0 Hin)
    as (k & ending & Hk & Htr & _).
  exists k, ending. split; assumption.
Defined.

(** The time a call can spend in back-off waits is at most
    [retry_delay * (2 ^ max_retries - 1)], 14 with the defaults, whatever
    the provider does. *)
Theorem total_backoff_bound provider prompt conversation_history max_retries retry_delay s :
  0 <= max_retries -> 0 <= retry_delay ->
  let r := generate_response_with_retry provider prompt conversation_history
             max_retries retry_delay s in
  0 <= total_sleep (trace r) <= retry_delay * (2 ^ max_retries - 1).
Proof.
  intros Hm Hd. cbv zeta. unfold generate_response_with_retry.
  destruct (retry_loop_sleeps provider prompt conversation_history max_retries
              (S (Z.to_nat (max_retries + 1))) 0 retry_delay s Hm)
    as (k & Hk & Hsl).
  unfold total_sleep. rewrite Hsl, doubling_total.
  assert (H1 : 1 <= 2 ^ Z.of_nat k) by (apply Z.pow_le_mono_r with (b := 0); lia).
  assert (H2 : 2 ^ Z.of_nat k <= 2 ^ max_retries) by (apply Z.pow_le_mono_r; lia).
  split; [apply Z.mul_nonneg_nonneg; lia|].
  apply Z.mul_le_mono_nonneg_l; lia.
Qed.

Lemma total_backoff_bound_witness :
  (0 <= 3 /\ 0 <= 2) /\
  0 <= total_sleep (trace (generate_response_with_retry always_overloaded
                             "hi" None 3 2 state0)) <= 2 * (2 ^ 3 - 1).
Proof.
  split; [split; lia|].
  exact (total_backoff_bound always_overloaded "hi" None 3 2 state0
           ltac:(lia) ltac:(lia)).
Defined.

(** For parameters in range, a call shows exactly one [st.error] when it
    returns [(None, None)], either the cap message or the text of a
    provider error that is not an overload, and none when it returns a
    reply; it ends in no other way. *)
Theorem one_error_per_failure provider prompt conversation_history max_retries
    retry_delay s :
  InRange max_retries retry_delay ->
  let r := generate_response_with_retry provider prompt conversation_history
             max_retries retry_delay s in
  (exists response chat, outcome r = Val (Reply response chat) /\ errors (trace r) = [])
  \/ (outcome r = Val NoReply /\
      (errors (trace r) = [cap_error] \/
       exists e, is_overloaded e = false /\
                 errors (trace r) = ["Error generating response: " ++ e])).
Proof.
  intros Hin. cbv zeta. unfold generate_response_with_retry.
  pose proof (in_range_granted _ _ Hin) as Hg.
  destruct (retry_loop_granted provider prompt conversation_history max_retries
              (S (Z.to_nat (max_retries + 1))) 0 retry_delay s Hg ltac:(lia))
    as (k & ending & _ & -> & Hend).
  rewrite errors_app, errors_retry_rounds. cbn [app errors].
  destruct Hend as [(response & chat & Ho & ->)|[Ho [-> | (e & He & ->)]]].
  - left. now exists response, chat.
  - right. split; [exact Ho | now left].
  - right. split; [exact Ho|]. right. now exists e.
Qed.

Lemma one_error_per_failure_witness :
  InRange 3 2 /\
  errors (trace (generate_response_with_retry (always_failing "401 bad key")
                   "hi" None 3 2 state0))
  = ["Error generating response: 401 bad key"].
Proof.
  assert (Hin : InRange 3 2).
  { unfold InRange. repeat split; try lia; vm_compute; try reflexivity; discriminate. }
  split; [exact Hin|].
  destruct (one_error_per_failure (always_failing "401 bad key") "hi" None 3 2 state0
              Hin)
    as [(response & chat & Ho & _)|[_ [He|(e & _ & He)]]].
  - discriminate Ho.
  - discriminate He.
  - reflexivity.
Defined.

(** With a negative cap the loop body never runs: no request is sent and
    the function returns a bare [None], so unpacking its result into
    [response, chat], as [main] does, raises. *)
Theorem negative_cap_breaks_unpacking provider prompt conversation_history
    max_retries retry_delay s :
  max_retries < 0 ->
  (c <- generate_response_with_retry provider prompt conversation_history
          max_retries retry_delay ;;
   unpack c) s
  = (Raised "cannot unpack non-iterable NoneType object", s, []).
Proof.
  intros H. unfold bind. now rewrite negative_cap.
Qed.

Lemma negative_cap_breaks_unpacking_witness :
  -1 < 0 /\
  outcome ((c <- generate_response_with_retry (answering sample_stream)
                   "hi" None (-1) 2 ;; unpack c) state0)
  = Raised "cannot unpack non-iterable NoneType object".
Proof.
  split; [lia|].
  now rewrite (negative_cap_breaks_unpacking (answering sample_stream) "hi" None
                 (-1) 2 state0 ltac:(lia)).
Defined.

(** With a negative delay and at least one retry allowed, the first
    overload failure ends the call with an exception that leaves the
    function: one request was sent, nothing was waited for and no error was
    displayed.  For a delay down to [- sleep_max] and a cap of at most 4300
    digits it is the [ValueError] of [time.sleep], raised after the warning
    was shown. *)
Theorem negative_delay_raises provider prompt conversation_history max_retries
    retry_delay s :
  retry_delay < 0 -> 1 <= max_retries ->
  OverloadedAt provider (calls s) ->
  let r := generate_response_with_retry provider prompt conversation_history
             max_retries retry_delay s in
  (exists x, outcome r = Raised x) /\
  requests (trace r) = [build_request prompt conversation_history] /\
  sleeps (trace r) = [] /\
  errors (trace r) = [] /\
  (- sleep_max <= retry_delay -> max_retries < int_str_limit ->
   outcome r = Raised "sleep length must be non-negative" /\
   warnings (trace r) = [retry_warning retry_delay 1 max_retries]).
Proof.
  intros Hd Hm Hov. cbv zeta. unfold generate_response_with_retry.
  rewrite retry_loop_step.
  replace (0 <=? max_retries) with true by (symmetry; apply Z.leb_le; lia).
  destruct (Hov (build_request prompt conversation_history)) as (e & He & Hove).
  assert (Hcan : can_retry max_retries (0 + 1) retry_delay = false).
  { unfold can_retry. apply andb_false_iff. right. apply Z.leb_gt. exact Hd. }
  split; [|split; [|split; [|split]]].
  - destruct (attempt_escape provider prompt conversation_history max_retries
                0 retry_delay s e He Hove ltac:(lia) Hcan) as (x & t & -> & _).
    now exists x.
  - destruct (attempt_escape provider prompt conversation_history max_retries
                0 retry_delay s e He Hove ltac:(lia) Hcan) as (x & t & -> & Ht).
    destruct Ht as [-> | ->]; reflexivity.
  - destruct (attempt_escape provider prompt conversation_history max_retries
                0 retry_delay s e He Hove ltac:(lia) Hcan) as (x & t & -> & Ht).
    destruct Ht as [-> | ->]; reflexivity.
  - destruct (attempt_escape provider prompt conversation_history max_retries
                0 retry_delay s e He Hove ltac:(lia) Hcan) as (x & t & -> & Ht).
    destruct Ht as [-> | ->]; reflexivity.
  - intros Hlow Hlim.
    rewrite (attempt_negative_delay provider prompt conversation_history max_retries
               0 retry_delay s e He Hove) by lia.
    now split.
Qed.

Lemma negative_delay_raises_witness :
  (-2 < 0 /\ 1 <= 3) /\
  outcome (generate_response_with_retry always_overloaded "hi" None 3 (-2) state0)
  = Raised "sleep length must be non-negative".
Proof.
  split; [split; lia|].
  refine (proj1 (proj2 (proj2 (proj2 (proj2
            (negative_delay_raises always_overloaded "hi" None 3 (-2) state0
               ltac:(lia) ltac:(lia) (always_overloaded_at _))))) _ _)).
  - unfold sleep_max. lia.
  - vm_compute. reflexivity.
Defined.

(** The overload test is loose: [503] and any spelling of [overloaded] in
    upper or lower case may stand anywhere in the error text, in either
    order and inside longer words or numbers. *)
Theorem overload_signature_is_loose a b c mid :
  PyStr.lower mid = "overloaded" ->
  is_overloaded (a ++ "503" ++ b ++ mid ++ c) = true /\
  is_overloaded (a ++ mid ++ b ++ "503" ++ c) = true.
Proof.
  intros Hmid. split; apply is_overloaded_spec; split.
  - now exists a, (b ++ mid ++ c).
  - exists (a ++ "503" ++ b), mid, c. split; [|exact Hmid].
    now rewrite !append_assoc.
  - exists (a ++ mid ++ b), c. now rewrite !append_assoc.
  - now exists a, mid, (b ++ "503" ++ c).
Qed.

Lemma overload_signature_is_loose_witness :
  PyStr.lower "OverLoaded" = "overloaded" /\
  is_overloaded ("model " ++ "OverLoaded" ++ ", code 1" ++ "503" ++ "9") = true.
Proof.
  split; [reflexivity|].
  apply (overload_signature_is_loose "model " ", code 1" "9" "OverLoaded" eq_refl).
Defined.

(** ** The script *)

(** A run of the script sends requests exactly when the set-up succeeded
    and a non-empty prompt was submitted; an empty prompt counts as none. *)
Theorem requests_need_key_and_prompt provider inp s :
  requests (trace (main provider inp s)) <> []
  <-> outcome (setup_google_api inp s) = Val true /\
      exists prompt, chat_input inp = Some prompt /\ prompt <> "".
Proof.
  assert (Hsub : forall p, submitted inp = Some p <->
                           chat_input inp = Some p /\ p <> "").
  { intros p. unfold submitted. destruct (chat_input inp) as [[|c q]|]; simpl;
      split; try discriminate; try (intros [H _]; discriminate H).
    - intros [[= <-] H]. now contradiction H.
    - intros [= <-]. split; [reflexivity | discriminate].
    - intros [[= <-] _]. reflexivity. }
  destruct (setup_google_api_frame inp s) as ([Hr|Hr] & _).
  - destruct (submitted inp) as [p|] eqn:Hp.
    + destruct (main_turn provider inp s p Hr Hp) as (_ & _ & _ & _ & ->).
      destruct (generate_response_spec provider p
                  (history_argument p (ready_state inp s))
                  (with_user_message p (ready_state inp s))) as (_ & _ & _ & Hne).
      split; [intros _|intros _; exact Hne].
      split; [exact Hr|]. exists p. now apply Hsub.
    + destruct (main_ready provider inp s Hr) as (t0 & Ht0 & ->). rewrite Hp.
      unfold ret, trace; cbn [snd]. rewrite app_nil_r, Ht0.
      split; [intros H; now contradiction H|].
      intros (_ & p & Hc). apply Hsub in Hc. congruence.
  - rewrite main_not_ready by assumption.
    destruct (setup_google_api_frame inp s) as (_ & _ & _ & _ & Hreq).
    unfold trace at 1; cbn [snd]. rewrite !requests_app, Hreq. unfold header.
    cbn [requests app].
    split; [intros H; now contradiction H|].
    intros (H & _). rewrite Hr in H. discriminate H.
Qed.

Lemma requests_need_key_and_prompt_witness :
  requests (trace (main (answering sample_stream) (with_key (Some "")) state0)) = [] /\
  (requests (trace (main (answering sample_stream)
                      (with_key (Some "I have a fever")) state0)) <> []).
Proof.
  split; [reflexivity|].
  apply (proj2 (requests_need_key_and_prompt (answering sample_stream)
                  (with_key (Some "I have a fever")) state0)).
  split; [reflexivity|]. exists "I have a fever". split; [reflexivity | discriminate].
Defined.

(** When the set-up fails, for a missing key or because
    [genai.configure] raised, the run is ended by [st.stop()]: nothing is
    redrawn, no greeting is added, and the conversation, the chat session
    and the provider are left untouched. *)
Theorem stop_without_key provider inp s :
  outcome (setup_google_api inp s) = Val false ->
  let r := main provider inp s in
  outcome r = Halted /\
  messages (final r) = messages s /\
  chat_session (final r) = chat_session s /\
  calls (final r) = calls s /\
  requests (trace r) = [] /\
  last (trace r) Stop = Stop /\
  (forall who, ~ In (ChatMessage who) (trace r)).
Proof.
  intros Hr. cbv zeta. rewrite main_not_ready by assumption.
  destruct (setup_google_api_frame inp s) as (_ & Hc & Hm & Hs & Hreq).
  unfold outcome, final, trace in *; cbn [fst snd] in *.
  rewrite !requests_app, Hreq. unfold header. cbn [requests app].
  repeat split; try assumption.
  - match goal with
    | |- last (_ :: _ :: _ :: _ :: ?t ++ [Stop])%list Stop = Stop =>
        change (last ((header ++ t) ++ [Stop])%list Stop = Stop)
    end.
    apply last_last.
  - intros who Hin. repeat (destruct Hin as [Hin|Hin]; [discriminate Hin|]).
    apply in_app_or in Hin as [Hin|Hin].
    + revert Hin. clear. unfold setup_google_api, genai_configure.
      destruct (env_key inp) as [[|c k]|];
        destruct (google_api_key s) as [[|c' k']|] eqn:Hc;
        destruct (key_input inp) as [|c2 k2] eqn:Hk;
        cbv [bind ret negb get try_except emit raise set_google_api_key
             key_truthy PyStr.truthy];
        rewrite ?Hc, ?Hk; cbv iota beta;
        repeat match goal with
               | |- context [configure_error inp ?k] =>
                   destruct (configure_error inp k)
               end;
        cbn [snd app]; intros Hin;
        repeat (destruct Hin as [Hin|Hin]; [discriminate Hin|]); exact Hin.
    + destruct Hin as [Hin|[]]. discriminate Hin.
Qed.

Lemma stop_without_key_witness :
  outcome (setup_google_api (typing "k-123" (reject_all "API key not valid")
                                (Some "I have a fever")) returning_patient)
  = Val false /\
  requests (trace (main (answering sample_stream)
                     (typing "k-123" (reject_all "API key not valid")
                        (Some "I have a fever")) returning_patient)) = [].
Proof.
  split; [reflexivity|].
  apply (stop_without_key (answering sample_stream)
           (typing "k-123" (reject_all "API key not valid") (Some "I have a fever"))
           returning_patient eq_refl).
Defined.

Lemma greeted_idempotent (msgs : list Message) : greeted (greeted msgs) = greeted msgs.
Proof. now destruct msgs. Qed.

Lemma greeted_nonempty (msgs : list Message) : greeted msgs <> [].
Proof. now destruct msgs. Qed.

(** Without a stored chat session the client is called without history. *)
Lemma history_argument_fresh inp s prompt :
  chat_session s = None ->
  history_argument prompt (ready_state inp s) = None.
Proof.
  intros Hcs. unfold history_argument, ready_state. cbn [chat_session].
  now rewrite Hcs.
Qed.

(** A run with a key and no prompt. *)
Lemma main_idle provider inp s :
  outcome (setup_google_api inp s) = Val true ->
  submitted inp = None ->
  outcome (main provider inp s) = Val tt /\
  final (main provider inp s) = ready_state inp s /\
  requests (trace (main provider inp s)) = [].
Proof.
  intros Hr Hsub. destruct (main_ready provider inp s Hr) as (t0 & Ht0 & ->).
  rewrite Hsub. unfold ret, outcome, final, trace; cbn [fst snd].
  now rewrite app_nil_r.
Qed.

(** The requests of a turn made with a chat session in the state. *)
Lemma requests_with_session provider inp s prompt chat :
  outcome (setup_google_api inp s) = Val true ->
  submitted inp = Some prompt ->
  chat_session s = Some chat ->
  Forall (fun q => req_history q = map to_gemini (greeted (messages s)) /\
                   req_message q = prompt)
         (requests (trace (main provider inp s))).
Proof.
  intros Hready Hsub Hcs.
  assert (Hh : history_argument prompt (ready_state inp s)
               = Some (map to_gemini (greeted (messages s)))).
  { unfold history_argument, ready_state. cbn [chat_session messages].
    now rewrite Hcs, build_history_prior. }
  destruct (main_turn provider inp s prompt Hready Hsub) as (_ & _ & _ & _ & ->).
  destruct (generate_response_spec provider prompt
              (history_argument prompt (ready_state inp s))
              (with_user_message prompt (ready_state inp s))) as (_ & _ & Hall & _).
  rewrite Hh in Hall |- *. eapply Forall_impl; [|exact Hall]. intros q <-.
  unfold build_request. destruct (messages s) as [|m0 ms]; now split.
Qed.

(** With a key and no prompt, a run only makes sure the conversation opens
    with the greeting: an empty conversation becomes the greeting alone, any
    other is left as it is, and a second such run adds nothing. *)
Theorem greeting_once provider inp inp' s :
  outcome (setup_google_api inp s) = Val true ->
  submitted inp = None ->
  let r := main provider inp s in
  outcome r = Val tt /\
  messages (final r) = greeted (messages s) /\
  (messages s = [] -> messages (final r) = [assistant_message greeting]) /\
  (messages s <> [] -> messages (final r) = messages s) /\
  chat_session (final r) = chat_session s /\
  requests (trace r) = [] /\
  (outcome (setup_google_api inp' (final r)) = Val true ->
   submitted inp' = None ->
   messages (final (main provider inp' (final r))) = messages (final r)).
Proof.
  intros Hr Hsub. cbv zeta.
  destruct (main_idle provider inp s Hr Hsub) as (Ho & Hf & Hreq).
  rewrite Hf. cbn [ready_state messages chat_session].
  repeat split; try assumption.
  - now intros ->.
  - intros H. destruct (messages s); [now contradiction H | reflexivity].
  - intros Hr' Hsub'. rewrite <- Hf in *.
    destruct (main_idle provider inp' _ Hr' Hsub') as (_ & -> & _).
    cbn [ready_state messages]. rewrite Hf. cbn [ready_state messages].
    apply greeted_idempotent.
Qed.

Lemma greeting_once_witness :
  (outcome (setup_google_api (with_key None) state0) = Val true /\
   submitted (with_key None) = None) /\
  messages (final (main (answering sample_stream) (with_key None) state0))
  = [assistant_message greeting] /\
  messages (final (main (answering sample_stream) (with_key (Some ""))
                     (final (main (answering sample_stream) (with_key None) state0))))
  = messages (final (main (answering sample_stream) (with_key None) state0)).
Proof.
  split; [now split|].
  pose proof (greeting_once (answering sample_stream) (with_key None)
                (with_key (Some "")) state0 eq_refl eq_refl) as H.
  cbv zeta in H. destruct H as (_ & _ & H1 & _ & _ & _ & H2).
  split; [now apply H1 | now apply H2].
Defined.

Lemma session_kept_aux provider inp s chat :
  chat_session s = Some chat ->
  chat_session (final (main provider inp s)) = Some chat.
Proof.
  intros Hcs.
  destruct (setup_google_api_frame inp s) as ([Hr|Hr] & _ & _ & Hs & _).
  - destruct (submitted inp) as [p|] eqn:Hsub.
    + destruct (main_turn provider inp s p Hr Hsub) as (_ & _ & -> & _).
      now rewrite Hcs.
    + destruct (main_idle provider inp s Hr Hsub) as (_ & -> & _).
      exact Hcs.
  - rewrite main_not_ready by assumption.
    unfold final in *; cbn [fst snd] in *. now rewrite Hs.
Qed.

(** A chat session stored in the state is never replaced or dropped by a
    run of the script, whatever the inputs and the provider; the chat that
    the client returns for such a turn is discarded. *)
Theorem session_kept provider inp s chat :
  chat_session s = Some chat ->
  chat_session (final (main provider inp s)) = Some chat.
Proof. apply session_kept_aux. Qed.

Lemma session_kept_witness :
  chat_session returning_patient = Some (Chat 0) /\
  chat_session (final (main (answering sample_stream)
                         (with_key (Some "I have a fever")) returning_patient))
  = Some (Chat 0).
Proof.
  split; [reflexivity|].
  apply (session_kept (answering sample_stream) (with_key (Some "I have a fever"))
           returning_patient (Chat 0) eq_refl).
Defined.

(** Without a chat session in the state, a turn stores the chat the client
    returns, also when the stream of that reply later breaks; when the
    client returns [(None, None)] the state stays without a session. *)
Theorem session_stored_on_first_reply provider inp s prompt :
  outcome (setup_google_api inp s) = Val true ->
  submitted inp = Some prompt ->
  chat_session s = None ->
  let g := generate_response provider prompt None
             (with_user_message prompt (ready_state inp s)) in
  let r := main provider inp s in
  (forall response chat, outcome g = Val (Reply response chat) ->
                         chat_session (final r) = Some chat) /\
  (outcome g = Val NoReply -> chat_session (final r) = None).
Proof.
  intros Hr Hsub Hcs. cbv zeta.
  destruct (main_turn provider inp s prompt Hr Hsub) as (_ & _ & Hs & _).
  rewrite (history_argument_fresh inp s prompt Hcs), Hcs in Hs. rewrite Hs.
  split; [intros response chat ->|intros ->]; reflexivity.
Qed.

Lemma session_stored_on_first_reply_witness :
  (outcome (setup_google_api (with_key (Some "I have a fever")) state0) = Val true /\
   submitted (with_key (Some "I have a fever")) = Some "I have a fever" /\
   chat_session state0 = None) /\
  chat_session (final (main (answering broken_stream)
                         (with_key (Some "I have a fever")) state0))
  = Some (Chat 0).
Proof.
  split; [repeat split|].
  apply (proj1 (session_stored_on_first_reply (answering broken_stream)
                  (with_key (Some "I have a fever")) state0 "I have a fever"
                  eq_refl eq_refl eq_refl) broken_stream (Chat 0) eq_refl).
Defined.

(** As long as no chat session is stored, every request of a turn has an
    empty history and the system instruction in front of the prompt,
    however long the stored conversation is: earlier messages are not sent. *)
Theorem first_turn_sends_no_history provider inp s prompt :
  outcome (setup_google_api inp s) = Val true ->
  submitted inp = Some prompt ->
  chat_session s = None ->
  let r := main provider inp s in
  requests (trace r) <> [] /\
  Forall (fun q => req_history q = [] /\
                   req_message q = system_instruction ++ nl ++ nl ++ "User: " ++ prompt)
         (requests (trace r)).
Proof.
  intros Hr Hsub Hcs. cbv zeta.
  destruct (main_turn provider inp s prompt Hr Hsub) as (_ & _ & _ & _ & ->).
  rewrite (history_argument_fresh inp s prompt Hcs).
  destruct (generate_response_spec provider prompt None
              (with_user_message prompt (ready_state inp s))) as (_ & _ & Hall & Hne).
  split; [exact Hne|].
  eapply Forall_impl; [|exact Hall]. intros q <-. now split.
Qed.

Lemma first_turn_sends_no_history_witness :
  (outcome (setup_google_api (with_key (Some "and a cough"))
              {| calls := 4;
                 messages := [assistant_message greeting; user_message "I have a fever";
                              assistant_message apology];
                 chat_session := None; google_api_key := None |}) = Val true /\
   submitted (with_key (Some "and a cough")) = Some "and a cough") /\
  map req_history
    (requests (trace (main (answering sample_stream) (with_key (Some "and a cough"))
              {| calls := 4;
                 messages := [assistant_message greeting; user_message "I have a fever";
                              assistant_message apology];
                 chat_session := None; google_api_key := None |})))
  = [ [] ].
Proof.
  split; [now split|].
  destruct (first_turn_sends_no_history (answering sample_stream)
              (with_key (Some "and a cough"))
              {| calls := 4;
                 messages := [assistant_message greeting; user_message "I have a fever";
                              assistant_message apology];
                 chat_session := None; google_api_key := None |}
              "and a cough" eq_refl eq_refl eq_refl) as [_ _].
  reflexivity.
Defined.

(** When the stream is read to its end, the message recorded for the
    assistant is the concatenation, in order, of the texts of the chunks;
    chunks without a text and chunks with an empty text add nothing. *)
Theorem reply_is_concatenation provider inp s prompt response chat :
  outcome (setup_google_api inp s) = Val true ->
  submitted inp = Some prompt ->
  outcome (generate_response provider prompt
             (history_argument prompt (ready_state inp s))
             (with_user_message prompt (ready_state inp s)))
  = Val (Reply response chat) ->
  stream_failure response = None ->
  let r := main provider inp s in
  outcome r = Val tt /\
  messages (final r)
  = (greeted (messages s)
     ++ [user_message prompt; assistant_message (received response)])%list.
Proof.
  intros Hready Hsub Hg He. cbv zeta.
  destruct (main_turn provider inp s prompt Hready Hsub) as (Ho & Hm & _).
  split; [exact Ho|]. rewrite Hm, Hg. unfold reply_text. now rewrite He.
Qed.

Lemma reply_is_concatenation_witness :
  (outcome (setup_google_api (with_key (Some "I have a fever")) state0) = Val true /\
   submitted (with_key (Some "I have a fever")) = Some "I have a fever" /\
   stream_failure sample_stream = None) /\
  messages (final (main (answering sample_stream)
                     (with_key (Some "I have a fever")) state0))
  = [ assistant_message greeting; user_message "I have a fever";
      assistant_message "Possible condition: flu. See a doctor." ].
Proof.
  split; [repeat split|].
  apply (reply_is_concatenation (answering sample_stream)
           (with_key (Some "I have a fever")) state0 "I have a fever"
           sample_stream (Chat 0) eq_refl eq_refl eq_refl eq_refl).
Defined.

(** Two turns in a row, the first made without a chat session and
    answered: the second turn sends the whole conversation so far as
    history, the greeting and the first exchange in order, and the bare
    second prompt; the conversation ends with both exchanges and the chat
    of the first reply is still the one stored. *)
Theorem second_turn_sends_first provider inp1 inp2 s p1 p2 response chat :
  outcome (setup_google_api inp1 s) = Val true ->
  submitted inp1 = Some p1 ->
  chat_session s = None ->
  outcome (generate_response provider p1 None
             (with_user_message p1 (ready_state inp1 s)))
  = Val (Reply response chat) ->
  let r1 := main provider inp1 s in
  outcome (setup_google_api inp2 (final r1)) = Val true ->
  submitted inp2 = Some p2 ->
  let r2 := main provider inp2 (final r1) in
  let first_exchange :=
    [user_message p1; assistant_message (reply_text (Val (Reply response chat)))] in
  Forall (fun q => req_history q
                   = map to_gemini (greeted (messages s) ++ first_exchange)%list /\
                   req_message q = p2)
         (requests (trace r2)) /\
  (exists reply,
     messages (final r2)
     = (greeted (messages s) ++ first_exchange
        ++ [user_message p2; assistant_message reply])%list) /\
  chat_session (final r2) = Some chat.
Proof.
  intros Hr1 Hsub1 Hcs Hg. cbv zeta. intros Hr2 Hsub2.
  destruct (main_turn provider inp1 s p1 Hr1 Hsub1) as (_ & Hm1 & Hs1 & _).
  rewrite (history_argument_fresh inp1 s p1 Hcs), Hg in Hm1, Hs1.
  rewrite Hcs in Hs1. cbn [session_after] in Hs1.
  assert (Hg1 : greeted (messages (final (main provider inp1 s)))
                = messages (final (main provider inp1 s))).
  { rewrite Hm1. destruct (greeted (messages s)) as [|m ms] eqn:E;
      [now apply greeted_nonempty in E | reflexivity]. }
  pose proof (requests_with_session provider inp2 _ p2 chat Hr2 Hsub2 Hs1) as Hreq.
  rewrite Hg1, Hm1 in Hreq.
  split; [exact Hreq|]. split.
  - destruct (main_turn provider inp2 _ p2 Hr2 Hsub2) as (_ & Hm2 & _).
    rewrite Hg1, Hm1 in Hm2. eexists. rewrite Hm2, <- app_assoc. reflexivity.
  - now apply session_kept_aux.
Qed.

Lemma second_turn_sends_first_witness :
  map (fun q => map turn_role (request_turns q))
    (requests (trace (main (answering sample_stream) (with_key (Some "and a cough"))
                        (final (main (answering sample_stream)
                                  (with_key (Some "I have a fever")) state0)))))
  = [ ["model"; "user"; "model"; "user"] ] /\
  Forall (fun q => req_message q = "and a cough")
    (requests (trace (main (answering sample_stream) (with_key (Some "and a cough"))
                        (final (main (answering sample_stream)
                                  (with_key (Some "I have a fever")) state0))))).
Proof.
  split; [reflexivity|].
  destruct (second_turn_sends_first (answering sample_stream)
              (with_key (Some "I have a fever")) (with_key (Some "and a cough"))
              state0 "I have a fever" "and a cough" sample_stream (Chat 0)
              eq_refl eq_refl eq_refl eq_refl eq_refl eq_refl) as (H & _).
  eapply Forall_impl; [|exact H]. now intros q [_ Hq].
Defined.

(** A run of the script writes only the roles [user] and [assistant]: a
    conversation made of such messages stays one. *)
Theorem roles_kept provider inp s :
  Forall StoreRole (messages s) ->
  Forall StoreRole (messages (final (main provider inp s))).
Proof.
  intros Hall.
  assert (Hg : Forall StoreRole (greeted (messages s))).
  { destruct (messages s); [|exact Hall].
    apply Forall_cons; [now right | apply Forall_nil]. }
  destruct (setup_google_api_frame inp s) as ([Hr|Hr] & _ & Hm & _).
  - destruct (submitted inp) as [p|] eqn:Hsub.
    + destruct (main_turn provider inp s p Hr Hsub) as (_ & -> & _).
      apply Forall_app. split; [exact Hg|].
      apply Forall_cons; [now left|].
      apply Forall_cons; [now right | apply Forall_nil].
    + destruct (main_idle provider inp s Hr Hsub) as (_ & -> & _). exact Hg.
  - rewrite main_not_ready by assumption.
    unfold final in *; cbn [fst snd] in *. now rewrite Hm.
Qed.

Lemma roles_kept_witness :
  Forall StoreRole (messages returning_patient) /\
  Forall StoreRole
    (messages (final (main (answering broken_stream)
                        (with_key (Some "I have a fever")) returning_patient))).
Proof.
  assert (H : Forall StoreRole (messages returning_patient)).
  { apply Forall_cons; [now left|].
    apply Forall_cons; [now right | apply Forall_nil]. }
  split; [exact H|].
  exact (roles_kept (answering broken_stream) (with_key (Some "I have a fever"))
           returning_patient H).
Defined.

(** The history built from a conversation has one turn for each message
    but the last, in the same order and with the same texts, each a single
    part; [assistant] becomes [model] and every other role, known or not,
    becomes [user]. *)
Theorem history_format (msgs : list Message) :
  length (build_history msgs) = pred (length msgs) /\
  map parts (build_history msgs)
  = map (fun m => [ {| text := content m |} ]) (removelast msgs) /\
  Forall ApiRole (build_history msgs) /\
  (forall prior m, msgs = (prior ++ [m])%list ->
     map turn_role (build_history msgs)
     = map (fun m => if (role m =? "assistant")%string then "model" else "user") prior).
Proof.
  rewrite build_history_map. repeat split.
  - rewrite length_map. induction msgs as [|m [|m' ms] IH]; try reflexivity.
    change (removelast (m :: m' :: ms)) with (m :: removelast (m' :: ms)).
    cbn [length] in *. now rewrite IH.
  - now rewrite map_map.
  - apply Forall_map, Forall_forall. intros m _. unfold ApiRole, to_gemini.
    cbn [turn_role]. destruct (role m =? "assistant")%string; [now left | now right].
  - intros prior m ->. now rewrite removelast_last, map_map.
Qed.

(** A run that is not stopped leaves a conversation that is not empty and
    that began with the greeting if it was empty before. *)
Theorem conversation_opened provider inp s :
  outcome (main provider inp s) = Val tt ->
  messages (final (main provider inp s)) <> [] /\
  (messages s = [] ->
   exists rest,
     messages (final (main provider inp s)) = assistant_message greeting :: rest).
Proof.
  intros Ho.
  destruct (setup_google_api_frame inp s) as ([Hr|Hr] & _).
  - assert (H : exists rest,
                messages (final (main provider inp s))
                = (greeted (messages s) ++ rest)%list).
    { destruct (submitted inp) as [p|] eqn:Hsub.
      - destruct (main_turn provider inp s p Hr Hsub) as (_ & -> & _). now eexists.
      - destruct (main_idle provider inp s Hr Hsub) as (_ & -> & _).
        exists []. cbn [ready_state messages]. now rewrite app_nil_r. }
    destruct H as (rest & ->). split.
    + destruct (messages s); discriminate.
    + intros ->. now exists rest.
  - rewrite main_not_ready in Ho by assumption. discriminate Ho.
Qed.

Lemma conversation_opened_witness :
  outcome (main (always_failing "401 bad key") (with_key (Some "I have a fever")) state0)
  = Val tt /\
  messages (final (main (always_failing "401 bad key")
                     (with_key (Some "I have a fever")) state0)) <> [].
Proof.
  split; [reflexivity|].
  apply (conversation_opened (always_failing "401 bad key")
           (with_key (Some "I have a fever")) state0 eq_refl).
Defined.

(** ** The streamed display *)

Lemma placeholders_app (t u : list Event) :
  placeholders (t ++ u) = (placeholders t ++ placeholders u)%list.
Proof.
  induction t as [|e t IH]; simpl; [reflexivity|].
  destruct e; simpl; now rewrite ?IH.
Qed.

(** What the loop over the chunks shows: after each chunk with a text, the
    text so far followed by the cursor. *)
Lemma consume_placeholders (response : Stream) : forall full_response s,
  exists shown,
    placeholders (trace (consume response full_response s))
    = map (fun p => p ++ cursor) shown /\
    Forall (fun p => Prefix full_response p /\
                     Prefix p (full_response ++ received response)) shown.
Proof.
  induction response as [|e|[[txt|]] rest IH]; intros full_response s.
  - now exists [].
  - now exists [].
  - simpl. destruct txt as [|c txt].
    + exact (IH full_response s).
    + cbn [PyStr.truthy].
      destruct (IH (full_response ++ String c txt) s) as (shown & E & Hall).
      exists ((full_response ++ String c txt) :: shown).
      cbv [bind emit]. unfold trace in *.
      destruct (consume rest (full_response ++ String c txt) s) as [[o s2] t2].
      cbn [snd placeholders app map] in *. rewrite E. split; [reflexivity|].
      constructor.
      * split; [now exists (String c txt)|].
        exists (received rest). now rewrite append_assoc.
      * eapply Forall_impl; [|exact Hall].
        intros p [(r1 & ->) (r2 & Hp)]. split.
        -- exists (String c txt ++ r1). now rewrite append_assoc.
        -- exists r2. now rewrite <- append_assoc.
  - exact (IH full_response s).
Qed.

(** While a reply streams, the placeholder shows, chunk after chunk, a
    growing initial part of the received text followed by the cursor; its
    last content has no cursor and is the text recorded for the assistant:
    the whole text, or the error message if the stream broke. *)
Theorem streaming_display response chat s :
  let r := render_reply (Some response) s in
  exists shown,
    outcome r = Val (reply_text (Val (Reply response chat))) /\
    final r = s /\
    placeholders (trace r)
    = (map (fun p => (p ++ cursor)%string) shown
       ++ [reply_text (Val (Reply response chat))])%list /\
    Forall (fun p => Prefix p (received response)) shown.
Proof.
  cbv zeta.
  destruct (consume_placeholders response "" s) as (shown & E & Hall).
  destruct (consume_spec response "" s) as (t & Ec & _).
  exists shown. unfold render_reply, try_except, bind, reply_text.
  rewrite Ec in *. unfold trace, outcome, final in *. cbn [fst snd] in *.
  destruct (stream_failure response) as [e|].
  - cbv [emit ret]. cbn [fst snd]. rewrite !placeholders_app, E.
    repeat split. eapply Forall_impl; [|exact Hall]. now intros p [_ H].
  - cbv [emit ret]. cbn [fst snd]. rewrite !placeholders_app, E.
    repeat split. eapply Forall_impl; [|exact Hall]. now intros p [_ H].
Qed.
